(** * kolesa-parse: a shallow embedding of [parser.py]

    The crawler fetches the paginated listings of kolesa.kz, decides for each
    response whether it is a listings page, extracts one record per card and
    writes the accumulated records to a CSV file.  This development embeds
    the functions of [parser.py] and proves the properties its specification
    states about them.

    Conventions of the embedding:
    - a Python [str] is the list of its Unicode code points;
    - a parsed document (a [BeautifulSoup] object) is a tree of tags and
      strings; the HTML parser itself (lxml) is a parameter;
    - Python exceptions are an explicit [result] type; the builtins are
      those of CPython 3.11 with its default settings;
    - the network, the file system and the console are an explicit [world]
      threaded through [main] by a small state-and-exception monad. *)

From Stdlib Require Import ZArith NArith List Bool Lia String Ascii DecimalString.
From Stdlib Require DecimalZ DecimalPos.
From stdpp Require Import base option list gmap.

Local Open Scope Z_scope.

(** ** Python strings *)

Module Py.

(** A character is a Unicode code point, a [str] a sequence of them. *)
Abbreviation char := N.
Abbreviation str := (list N).

(** String literals of the source that are pure ASCII. *)
Definition lit (s : string) : str :=
  List.map N_of_ascii (list_ascii_of_string s).

(** [s.startswith(p)] *)
Fixpoint startswith (s p : str) {struct p} : bool :=
  match p, s with
  | [], _ => true
  | _ :: _, [] => false
  | c :: p', d :: s' => if N.eqb c d then startswith s' p' else false
  end.

(** [needle in hay] for two strings: [needle] occurs as a contiguous run. *)
Fixpoint contains (needle hay : str) : bool :=
  startswith hay needle ||
  match hay with
  | [] => false
  | _ :: hay' => contains needle hay'
  end.

(** Truthiness of a string: [bool(s)]. *)
Definition truthy (s : str) : bool :=
  match s with [] => false | _ :: _ => true end.

(** *** Character classes

    The tables are those of the Unicode Character Database 14.0.0, the one
    CPython 3.11 ships. *)

Definition in_ranges (rs : list (N * N)) (c : char) : bool :=
  existsb (fun r => (fst r <=? c)%N && (c <=? snd r)%N) rs.

(** [Py_UNICODE_ISSPACE]: the characters [str.strip()] removes. *)
Definition space_ranges : list (N * N) :=
  [(9, 13); (28, 32); (133, 133); (160, 160); (5760, 5760); (8192, 8202);
   (8232, 8233); (8239, 8239); (8287, 8287); (12288, 12288)]%N.

Definition isspace_char (c : char) : bool := in_ranges space_ranges c.

(** [Py_UNICODE_ISDECIMAL]: general category Nd.  This is what [\d] matches
    in a [str] pattern and what [int()] accepts as a digit.  Every block
    starts at its digit zero and runs through whole decades. *)
Definition decimal_ranges : list (N * N) :=
  [(48, 57); (1632, 1641); (1776, 1785); (1984, 1993); (2406, 2415);
   (2534, 2543); (2662, 2671); (2790, 2799); (2918, 2927); (3046, 3055);
   (3174, 3183); (3302, 3311); (3430, 3439); (3558, 3567); (3664, 3673);
   (3792, 3801); (3872, 3881); (4160, 4169); (4240, 4249); (6112, 6121);
   (6160, 6169); (6470, 6479); (6608, 6617); (6784, 6793); (6800, 6809);
   (6992, 7001); (7088, 7097); (7232, 7241); (7248, 7257); (42528, 42537);
   (43216, 43225); (43264, 43273); (43472, 43481); (43504, 43513);
   (43600, 43609); (44016, 44025); (65296, 65305); (66720, 66729);
   (68912, 68921); (69734, 69743); (69872, 69881); (69942, 69951);
   (70096, 70105); (70384, 70393); (70736, 70745); (70864, 70873);
   (71248, 71257); (71360, 71369); (71472, 71481); (71904, 71913);
   (72016, 72025); (72784, 72793); (73040, 73049); (73120, 73129);
   (92768, 92777); (92864, 92873); (93008, 93017); (120782, 120831);
   (123200, 123209); (123632, 123641); (125264, 125273);
   (130032, 130041)]%N.

Definition isdecimal_char (c : char) : bool := in_ranges decimal_ranges c.

(** [Py_UNICODE_TODECIMAL]: the value of a decimal digit. *)
Definition decimal_value (c : char) : option N :=
  match List.find (fun r => (fst r <=? c)%N && (c <=? snd r)%N) decimal_ranges with
  | Some r => Some ((c - fst r) mod 10)%N
  | None => None
  end.

(** Characters that are digits ([Py_UNICODE_ISDIGIT]) without being
    decimal: superscripts, subscripts, circled digits and the like. *)
Definition digit_only_ranges : list (N * N) :=
  [(178, 179); (185, 185); (4969, 4977); (6618, 6618); (8304, 8304);
   (8308, 8313); (8320, 8329); (9312, 9320); (9332, 9340); (9352, 9360);
   (9450, 9450); (9461, 9469); (9471, 9471); (10102, 10110);
   (10112, 10120); (10122, 10130); (68160, 68163); (69216, 69224);
   (69714, 69722); (127232, 127242)]%N.

Definition isdigit_char (c : char) : bool :=
  isdecimal_char c || in_ranges digit_only_ranges c.

(** [s.isdigit()]: at least one character and all of them digits. *)
Definition isdigit (s : str) : bool :=
  truthy s && forallb isdigit_char s.

(** [s.strip()] *)
Fixpoint lstrip (s : str) : str :=
  match s with
  | c :: s' => if isspace_char c then lstrip s' else s
  | [] => []
  end.

Definition strip (s : str) : str := rev (lstrip (rev (lstrip s))).

(** [sep.join(parts)] *)
Fixpoint join (sep : str) (parts : list str) : str :=
  match parts with
  | [] => []
  | [p] => p
  | p :: ps => p ++ sep ++ join sep ps
  end.

(** [str(n)] and the formatting of an integer in an f-string, for the
    integers whose numeral has at most 4300 digits ([str] raises
    [ValueError] on the others).  The integers the program formats are of
    this kind: page indices up to [MAX_PAGES], the failure counter, list
    lengths, the three-digit status codes of HTTP, and the prices [int] has
    read, whose numerals are no longer than the digits read. *)
Definition str_of_int (n : Z) : str :=
  lit (NilZero.string_of_int (Z.to_int n)).

End Py.

Import Py.

(** ** Exceptions *)

Inductive exn :=
| ValueError
| UnicodeEncodeError
| RequestException (msg : str).

Inductive result (A : Type) :=
| Ok (a : A)
| Raise (e : exn).
Arguments Ok {A} a.
Arguments Raise {A} e.

Definition rbind {A B} (r : result A) (k : A -> result B) : result B :=
  match r with
  | Ok a => k a
  | Raise e => Raise e
  end.

(** The default of [sys.get_int_max_str_digits()]: the longest run of
    digits [int] converts, and the longest numeral [str] produces. *)
Definition int_max_str_digits : Z := 4300.

(** [int(s)] on the strings the program passes to it, which are never
    signed, padded or underscored: the value of a non-empty run of at most
    [int_max_str_digits] decimal digits, [ValueError] on anything else. *)
Fixpoint int_digits (acc : Z) (s : str) : result Z :=
  match s with
  | [] => Ok acc
  | c :: s' =>
      match decimal_value c with
      | Some d => int_digits (10 * acc + Z.of_N d) s'
      | None => Raise ValueError
      end
  end.

Definition int (s : str) : result Z :=
  match s with
  | [] => Raise ValueError
  | _ :: _ =>
      if int_max_str_digits <? Z.of_nat (length s) then Raise ValueError
      else int_digits 0 s
  end.

(** ** Module constants *)

Definition BASE_URL : str := lit "https://kolesa.kz".
Definition URL : str := BASE_URL ++ lit "/cars/".
Definition MAX_PAGES : Z := 200.
Definition STOP_AFTER_BLOCKS : Z := 5.

(** ** Page detection *)

Definition is_listings_page (html : str) : bool :=
  if contains (lit "a-card__title") html && contains (lit "a-card__link") html
  then true
  else if contains (lit "a-elem") html
          && (contains (lit "a-el-info-title") html
              || contains (lit "a-el-info-price") html)
  then true
  else false.

(** ** Parsed documents

    What [parser.py] observes of a BeautifulSoup tree: tags with a name, the
    list of their classes and an optional [href], and strings.  A string is
    plain text, or the text inside one of the elements for which the
    builder keeps a class of its own (script, style, template, rt, rp), or
    a comment or declaration. *)

Inductive container :=
| Script
| Stylesheet
| TemplateString
| RubyTextString
| RubyParenthesisString.

Record attributes := {
  attr_class : list str;
  attr_href : option str;
}.

#[warnings="-register-all"]
Inductive node :=
| NavigableString (s : str)
| ContainerString (k : container) (s : str)
| Comment (s : str)
| Tag (nm : str) (at_ : attributes) (cs : list node).

(** A reference to a tag inside a document: the tag and the chain of tags
    enclosing it, innermost first (what following [.parent] gives). *)
Record tag := {
  parents : list (str * attributes);
  name_of : str;
  attrs : attributes;
  contents : list node;
}.

Fixpoint str_eqb (a b : str) : bool :=
  match a, b with
  | [], [] => true
  | c :: a', d :: b' => N.eqb c d && str_eqb a' b'
  | _, _ => false
  end.

(** The tag [n], if it is one, followed by the tags below it, in document
    order. *)
Fixpoint tags_in (up : list (str * attributes)) (n : node) : list tag :=
  match n with
  | Tag nm a cs =>
      {| parents := up; name_of := nm; attrs := a; contents := cs |}
      :: flat_map (tags_in ((nm, a) :: up)) cs
  | _ => []
  end.

(** [t.descendants], restricted to tags. *)
Definition descendants (t : tag) : list tag :=
  flat_map (tags_in ((name_of t, attrs t) :: parents t)) (contents t).

Definition container_eqb (a b : container) : bool :=
  match a, b with
  | Script, Script | Stylesheet, Stylesheet | TemplateString, TemplateString
  | RubyTextString, RubyTextString
  | RubyParenthesisString, RubyParenthesisString => true
  | _, _ => false
  end.

(** The builder's [string_containers]: the class of the strings a tag of
    this name holds, when it is not the plain one. *)
Definition string_container (nm : str) : option container :=
  if str_eqb nm (lit "script") then Some Script
  else if str_eqb nm (lit "style") then Some Stylesheet
  else if str_eqb nm (lit "template") then Some TemplateString
  else if str_eqb nm (lit "rt") then Some RubyTextString
  else if str_eqb nm (lit "rp") then Some RubyParenthesisString
  else None.

(** The strings below a node that are of the wanted class, in document
    order: the plain ones ([None]) or those of one container. *)
Fixpoint strings_in (want : option container) (n : node) : list str :=
  match n with
  | NavigableString s =>
      match want with None => [s] | Some _ => [] end
  | ContainerString k s =>
      match want with Some k' => if container_eqb k k' then [s] else [] | None => [] end
  | Comment _ => []
  | Tag _ _ cs => flat_map (strings_in want) cs
  end.

(** The strings [get_text] sees from a tag: those of the tag's own
    [interesting_string_types].  Seen from an ordinary tag, the text of a
    script below it is skipped; seen from the script tag, it is the
    text. *)
Definition all_strings (t : tag) : list str :=
  flat_map (strings_in (string_container (name_of t))) (contents t).

(** [t.get_text()] *)
Definition get_text (t : tag) : str := List.concat (all_strings t).

(** [t.get_text(sep, strip=True)]: every string stripped, the empty ones
    dropped, the rest joined by [sep]. *)
Definition get_text_strip (sep : str) (t : tag) : str :=
  join sep (List.filter truthy (List.map strip (all_strings t))).

(** [t.get("href")] *)
Definition get_href (t : tag) : option str := attr_href (attrs t).

(** *** find and find_all *)

Definition has_class (cls : str) (a : attributes) : bool :=
  existsb (str_eqb cls) (attr_class a).

(** [t.find_all(nm, class_=cls)]; [cls = None] is [t.find_all(nm)]. *)
Definition find_all (nm : str) (cls : option str) (t : tag) : list tag :=
  List.filter
    (fun d => str_eqb nm (name_of d) &&
              match cls with
              | Some c => has_class c (attrs d)
              | None => true
              end)
    (descendants t).

(** [t.find(nm, class_=cls)]: the first match, or [None]. *)
Definition find (nm : str) (cls : str) (t : tag) : option tag :=
  head (find_all nm (Some cls) t).

(** [x or y] where [x] is a tag or [None]: a tag is always truthy. *)
Definition or_else {A} (x y : option A) : option A :=
  match x with
  | Some _ => x
  | None => y
  end.

(** *** CSS selectors

    The fragment the program uses: compound selectors made of an optional
    type and classes, chained by the descendant combinator, in a comma
    list. *)

Record compound := {
  sel_type : option str;
  sel_classes : list str;
}.

(** A complex selector, rightmost compound first. *)
Definition complex := list compound.
Definition selector := list complex.

Definition compound_matches (c : compound) (nm : str) (a : attributes) : bool :=
  match sel_type c with
  | Some ty => str_eqb ty nm
  | None => true
  end && forallb (fun cls => has_class cls a) (sel_classes c).

(** The remaining compounds each match some enclosing tag, further and
    further out.  The enclosing tags are those of the whole document, not
    only those below the tag [select] was called on. *)
Fixpoint ancestors_match (cs : list compound) (up : list (str * attributes)) : bool :=
  match cs with
  | [] => true
  | c :: cs' =>
      (fix scan (up : list (str * attributes)) : bool :=
         match up with
         | [] => false
         | (nm, a) :: up' =>
             (compound_matches c nm a && ancestors_match cs' up') || scan up'
         end) up
  end.

Definition complex_matches (cx : complex) (t : tag) : bool :=
  match cx with
  | [] => false
  | c :: cs => compound_matches c (name_of t) (attrs t) && ancestors_match cs (parents t)
  end.

Definition selector_matches (s : selector) (t : tag) : bool :=
  existsb (fun cx => complex_matches cx t) s.

(** [t.select(s)] and [t.select_one(s)] *)
Definition select (s : selector) (t : tag) : list tag :=
  List.filter (selector_matches s) (descendants t).

Definition select_one (s : selector) (t : tag) : option tag :=
  head (select s t).

Definition type_class (ty cls : string) : compound :=
  {| sel_type := Some (lit ty); sel_classes := [lit cls] |}.
Definition class_only (cls : string) : compound :=
  {| sel_type := None; sel_classes := [lit cls] |}.

(** ** Pagination *)

(** [s or empty] for a string [s]. *)
Definition or_text (s : str) : str := if truthy s then s else [].

(** The loop of [pages_count] over the anchors of the pager. *)
Fixpoint pager_nums (anchors : list tag) (nums : list Z) : result (list Z) :=
  match anchors with
  | [] => Ok nums
  | a :: rest =>
      let t := strip (or_text (get_text a)) in
      if isdigit t
      then rbind (int t) (fun n => pager_nums rest (nums ++ [n]))
      else pager_nums rest nums
  end.

(** [max(nums)] for a non-empty list. *)
Definition py_max (n : Z) (nums : list Z) : Z := fold_left Z.max nums n.

Definition pages_count_soup (soup : tag) : result Z :=
  match or_else (find (lit "div") (lit "pager") soup)
                (find (lit "nav") (lit "pager") soup) with
  | None => Ok 1
  | Some pager =>
      rbind (pager_nums (find_all (lit "a") None pager) [])
        (fun nums =>
           match nums with
           | [] => Ok 1
           | n :: nums' => Ok (Z.min (py_max n nums') MAX_PAGES)
           end)
  end.

(** ** Parsing *)

(** One listing: the dictionary [parse_cards_new] and [parse_cards_old]
    build, with [None] as [None]. *)
Record row := {
  name : str;
  price : option Z;
  price_raw : option str;
  desc : option str;
  link : option str;
}.

(** [re.sub] with the pattern [[^\d]] and the empty replacement: only the
    decimal digits stay. *)
Definition digits_of (text : str) : str := List.filter isdecimal_char text.

Definition _norm_price (text : str) : result (option Z) :=
  if negb (truthy text) then Ok None
  else
    let digits := digits_of text in
    if truthy digits then rbind (int digits) (fun n => Ok (Some n))
    else Ok None.

(** [_norm_price(price_raw) if price_raw else None] *)
Definition price_of (price_raw : option str) : result (option Z) :=
  match price_raw with
  | Some t => if truthy t then _norm_price t else Ok None
  | None => Ok None
  end.

(** ["div.a-card"] *)
Definition sel_cards : selector := [[type_class "div" "a-card"]].
(** ["h5.a-card__title a.a-card__link"] *)
Definition sel_title : selector :=
  [[type_class "a" "a-card__link"; type_class "h5" "a-card__title"]].
(** [".a-card__price, .price, .price-in-list .price"] *)
Definition sel_price : selector :=
  [[class_only "a-card__price"]; [class_only "price"];
   [class_only "price"; class_only "price-in-list"]].
(** [".a-card__description, .a-card__subtitle, .card__description"] *)
Definition sel_desc : selector :=
  [[class_only "a-card__description"]; [class_only "a-card__subtitle"];
   [class_only "card__description"]].

(** The body of the loop of [parse_cards_new]: the rows to append for one
    card. *)
Definition card_new (c : tag) : result (list row) :=
  match select_one sel_title c with
  | None => Ok []
  | Some title_a =>
      let name := get_text_strip [] title_a in
      let href := get_href title_a in
      let link :=
        match href with
        | Some h => if truthy h && startswith h (lit "/")
                    then Some (BASE_URL ++ h) else href
        | None => href
        end in
      let price_node := select_one sel_price c in
      let price_raw := option_map (get_text_strip (lit " ")) price_node in
      rbind (price_of price_raw) (fun price =>
      let desc_node := select_one sel_desc c in
      let desc := option_map (get_text_strip (lit " ")) desc_node in
      Ok [{| name := name; price := price; price_raw := price_raw;
             desc := desc; link := link |}])
  end.

(** [for x in xs: out.extend(body(x))], stopping at the first exception. *)
Fixpoint for_each {A B} (body : A -> result (list B)) (xs : list A)
    (out : list B) : result (list B) :=
  match xs with
  | [] => Ok out
  | x :: xs' => rbind (body x) (fun new => for_each body xs' (out ++ new))
  end.

Definition parse_cards_new (soup : tag) : result (list row) :=
  for_each card_new (select sel_cards soup) [].

(** The body of the loop of [parse_cards_old]. *)
Definition card_old (b : tag) : result (list row) :=
  let title_a := or_else (find (lit "a") (lit "a-el-info-title") b)
                         (find (lit "span") (lit "a-el-info-title") b) in
  let name := option_map (get_text_strip []) title_a in
  let price_node := or_else (find (lit "span") (lit "a-el-info-price") b)
                            (find (lit "span") (lit "price") b) in
  let price_raw := option_map (get_text_strip (lit " ")) price_node in
  rbind (price_of price_raw) (fun price =>
  let link :=
    match title_a with
    | Some a =>
        match get_href a with
        | Some href =>
            if truthy href
            then if startswith href (lit "/")
                 then Some (BASE_URL ++ href) else Some href
            else None
        | None => None
        end
    | None => None
    end in
  let desc_node := or_else (find (lit "div") (lit "a-el-info-description") b)
                           (find (lit "div") (lit "a-search-description") b) in
  let desc := option_map (get_text_strip (lit " ")) desc_node in
  match name with
  | Some nm =>
      if truthy nm
      then Ok [{| name := nm; price := price; price_raw := price_raw;
                  desc := desc; link := link |}]
      else Ok []
  | None => Ok []
  end).

Definition parse_cards_old (soup : tag) : result (list row) :=
  for_each card_old (find_all (lit "div") (Some (lit "a-elem")) soup) [].

Definition parse_listings_soup (soup : tag) : result (list row) :=
  rbind (parse_cards_new soup) (fun new =>
  let data := [] ++ new in
  match data with
  | [] => rbind (parse_cards_old soup) (fun old => Ok (data ++ old))
  | _ :: _ => Ok data
  end).

(** ** The world: network, files, console, clock *)

Inductive pause :=
| recovery_pause      (* time.sleep(5) *)
| backoff_pause       (* time.sleep(10 + uniform(2.0, 6.0)) *)
| polite_pause.       (* time.sleep(round(uniform(1.5, 4.0), 2)) *)

(** [Fetched url] is one call of [fetch], however many HTTP requests the
    session sends for it. *)
Inductive event :=
| Fetched (url : str)
| Wrote (fname : str)
| Slept (p : pause)
| Printed (line : str).

(** The files, by name, as the text a reader decoding UTF-8 finds in them,
    and the effects so far, oldest first. *)
Record world := {
  files : gmap str str;
  trace : list event;
}.

(** Computations that read and change the world and may raise. *)
Definition M (A : Type) : Type := world -> result A * world.

Definition ret {A} (a : A) : M A := fun w => (Ok a, w).

Definition bind {A B} (m : M A) (k : A -> M B) : M B :=
  fun w =>
    match m w with
    | (Ok a, w') => k a w'
    | (Raise e, w') => (Raise e, w')
    end.

Definition lift {A} (r : result A) : M A := fun w => (r, w).

Definition emit (e : event) : M unit :=
  fun w => (Ok tt, {| files := files w; trace := trace w ++ [e] |}).

(** [with open(fname, "w") as f: f.write(text)]: the file is truncated. *)
Definition write_file (fname text : str) : M unit :=
  fun w => (Ok tt, {| files := <[fname := text]> (files w);
                      trace := trace w ++ [Wrote fname] |}).

(** [try: m except requests.RequestException as e: h(e)] *)
Definition try_request {A} (m : M A) (h : str -> M A) : M A :=
  fun w =>
    match m w with
    | (Raise (RequestException e), w') => h e w'
    | r => r
    end.

Notation "x <- m ;; k" := (bind m (fun x => k))
  (at level 100, m at level 99, k at level 100, right associativity).
Notation "m ;;; k" := (bind m (fun _ => k))
  (at level 100, k at level 100, right associativity).

Definition print (line : str) : M unit := emit (Printed line).
Definition sleep (p : pause) : M unit := emit (Slept p).

(** ** Output *)

Definition BOM : char := 65279%N.
Definition comma : char := 44%N.
Definition dquote : char := 34%N.
Definition CR : char := 13%N.
Definition LF : char := 10%N.

(** The [excel] dialect with minimal quoting: a field is quoted when it
    holds the delimiter, the quote character or a character of the line
    terminator, and quote characters inside it are doubled. *)
Definition csv_special (c : char) : bool :=
  N.eqb c comma || N.eqb c dquote || N.eqb c CR || N.eqb c LF.

Definition csv_field (s : str) : str :=
  if existsb csv_special s
  then [dquote]
       ++ flat_map (fun c => if N.eqb c dquote then [dquote; dquote] else [c]) s
       ++ [dquote]
  else s.

(** [writer.writerow(fields)] *)
Definition csv_line (fields : list str) : str :=
  join [comma] (List.map csv_field fields) ++ [CR; LF].

(** A cell as the writer sees it: [None] is written as the empty string,
    an integer as its decimal numeral. *)
Definition cell_text (o : option str) : str :=
  match o with Some s => s | None => [] end.
Definition cell_int (o : option Z) : str :=
  match o with Some n => str_of_int n | None => [] end.

Definition fields : list str :=
  [lit "name"; lit "price"; lit "price_raw"; lit "desc"; lit "link"].

(** The values of a row in the order of [fields]. *)
Definition row_cells (r : row) : list str :=
  [name r; cell_int (price r); cell_text (price_raw r);
   cell_text (desc r); cell_text (link r)].

(** What [writeheader] and [writerows] leave in a file opened with the
    [utf-8-sig] encoding. *)
Definition csv_text (rows : list row) : str :=
  [BOM] ++ csv_line fields
        ++ List.concat (List.map (fun r => csv_line (row_cells r)) rows).

Definition save_to_csv (rows : list row) (filename : str) : M unit :=
  write_file filename (csv_text rows).

Definition save_debug_html (page_no status_code : Z) (final_url html : str)
  : M str :=
  let fname := lit "debug_page_" ++ str_of_int page_no ++ lit ".html" in
  write_file fname
    (lit "<!-- status_code=" ++ str_of_int status_code
     ++ lit " final_url=" ++ final_url ++ lit " -->" ++ [LF] ++ html) ;;;
  ret fname.

(** ** Main *)

(** The local variables of [main] that live across iterations. *)
Record locals := {
  all_rows : list row;
  consecutive_blocks : Z;
}.

(** How an iteration ends: it goes on to the next page index (by [continue]
    or by reaching the end of the body), or leaves the loop by [break]. *)
Inductive control := Next | Break.

(** The address of page [i]: the f-string [{URL}?page={i}]. *)
Definition page_url (i : Z) : str := URL ++ lit "?page=" ++ str_of_int i.

Section Crawler.

(** The HTML parser behind [BeautifulSoup(html, "lxml")]: the top-level
    nodes of the document, or the exception the parser raises (a
    [UnicodeEncodeError] on a string that holds a lone surrogate). *)
Variable lxml : str -> result (list node).

(** The site as seen through one call of [session.get], with the retries
    and redirects the session makes on its own inside that call: for a URL,
    either the message of the [requests.RequestException] raised once the
    retries are exhausted, or the status code, final URL and body of the
    response. *)
Variable net : str -> str + (Z * str * str).

Definition BeautifulSoup (html : str) : result tag :=
  rbind (lxml html) (fun top =>
  Ok {| parents := [];
        name_of := lit "[document]";
        attrs := {| attr_class := []; attr_href := None |};
        contents := top |}).

Definition pages_count (html : str) : result Z :=
  rbind (BeautifulSoup html) pages_count_soup.

Definition parse_listings (html : str) : result (list row) :=
  rbind (BeautifulSoup html) parse_listings_soup.

Definition fetch (url : str) : M (Z * str * str) :=
  emit (Fetched url) ;;;
  lift match net url with
       | inl msg => Raise (RequestException msg)
       | inr response => Ok response
       end.

(** The body of [for i in range(2, last_page + 1)]. *)
Definition loop_body (i : Z) (st : locals) : M (control * locals) :=
  got <- try_request
           (r <- fetch (page_url i) ;; ret (Some r))
           (fun e =>
              print (lit "[WARN] page=" ++ str_of_int i
                     ++ lit " request failed: " ++ e) ;;;
              sleep recovery_pause ;;;
              ret None) ;;
  match got with
  | None => ret (Next, st)
  | Some (status, final_url, html) =>
      if negb (is_listings_page html) then
        let blocks := consecutive_blocks st + 1 in
        let st' := {| all_rows := all_rows st; consecutive_blocks := blocks |} in
        fname <- save_debug_html i status final_url html ;;
        print (lit "[WARN] page=" ++ str_of_int i
               ++ lit " NOT-LISTINGS (maybe blocked). status="
               ++ str_of_int status ++ lit " final_url=" ++ final_url
               ++ lit " saved=" ++ fname) ;;;
        sleep backoff_pause ;;;
        if blocks >=? STOP_AFTER_BLOCKS then
          print (lit "[STOP] " ++ str_of_int blocks
                 ++ lit " pages in a row are not listings. Stopping.") ;;;
          ret (Break, st')
        else ret (Next, st')
      else
        rows <- lift (parse_listings html) ;;
        let st' := {| all_rows := all_rows st ++ rows;
                      consecutive_blocks := 0 |} in
        sleep polite_pause ;;;
        (if i mod 20 =? 0 then
           save_to_csv (all_rows st') (lit "cars_kolesa_partial.csv") ;;;
           print (lit "[INFO] saved partial: "
                  ++ str_of_int (Z.of_nat (length (all_rows st')))
                  ++ lit " rows")
         else ret tt) ;;;
        ret (Next, st')
  end.

(** The [for] statement over the page indices still to visit.  The result
    says whether the loop ran to the end of the range or was left early. *)
Fixpoint for_loop (pages : list Z) (st : locals) : M (control * locals) :=
  match pages with
  | [] => ret (Next, st)
  | i :: rest =>
      r <- loop_body i st ;;
      match r with
      | (Break, st') => ret (Break, st')
      | (Next, st') => for_loop rest st'
      end
  end.

(** [range(lo, hi)] *)
Definition range (lo hi : Z) : list Z := seqZ lo (hi - lo).

Definition main : M unit :=
  r <- fetch URL ;;
  let '(status, final_url, first_html) := r in
  if negb (is_listings_page first_html) then
    fname <- save_debug_html 1 status final_url first_html ;;
    print (lit "[FATAL] Page 1 is not listings. status=" ++ str_of_int status
           ++ lit " final_url=" ++ final_url) ;;;
    print (lit "[DEBUG] Saved html to: " ++ fname)
  else
    last_page <- lift (pages_count first_html) ;;
    print (lit "Total pages (capped): " ++ str_of_int last_page) ;;;
    first_rows <- lift (parse_listings first_html) ;;
    r <- for_loop (range 2 (last_page + 1))
           {| all_rows := [] ++ first_rows; consecutive_blocks := 0 |} ;;
    let rows := all_rows (snd r) in
    save_to_csv rows (lit "cars_kolesa.csv") ;;;
    print (lit "Done. Saved rows: " ++ str_of_int (Z.of_nat (length rows))).

End Crawler.

(** * Vocabulary of the statements *)

(** [needle] occurs in [hay]: the reading of Python's [in] on strings. *)
Definition occurs (needle hay : str) : Prop :=
  ∃ before after, hay = before ++ needle ++ after.

(** The value of a character as a decimal digit, zero for the others. *)
Definition digit_value (c : char) : Z :=
  match decimal_value c with
  | Some d => Z.of_N d
  | None => 0
  end.

(** The number a run of decimal digits denotes, most significant digit
    first, continuing from the value [acc] of the digits already read. *)
Definition numeral_from (acc : Z) (s : str) : Z :=
  fold_left (fun n c => 10 * n + digit_value c) s acc.

Definition numeral (s : str) : Z := numeral_from 0 s.

(** A run of digits longer than [int] converts. *)
Definition over_cap (s : str) : bool :=
  int_max_str_digits <? Z.of_nat (length s).

(** A raw price text, if there is one, with more decimal digits than [int]
    converts. *)
Definition price_over_cap (price_raw : option str) : bool :=
  from_option (fun t => over_cap (digits_of t)) false price_raw.

(** What a price text normalises to: the number its decimal digits spell,
    or nothing when it has none. *)
Definition normalized (text : str) : option Z :=
  if truthy (digits_of text) then Some (numeral (digits_of text)) else None.

(** The pagination control [pages_count] looks at, if there is one. *)
Definition pager_of (soup : tag) : option tag :=
  or_else (find (lit "div") (lit "pager") soup)
          (find (lit "nav") (lit "pager") soup).

(** The label of an anchor, and the labels of a pager that pass
    [isdigit]. *)
Definition label (a : tag) : str := strip (or_text (get_text a)).

Definition numeric_labels (pager : tag) : list str :=
  List.filter isdigit (List.map label (find_all (lit "a") None pager)).

(** Every label is written in decimal digits only. *)
Definition all_decimal (labels : list str) : bool :=
  forallb (forallb isdecimal_char) labels.

(** Every label is written in decimal digits only, in no more of them than
    [int] converts. *)
Definition all_readable (labels : list str) : bool :=
  forallb (fun t => forallb isdecimal_char t && negb (over_cap t)) labels.

(** The line printed when a request fails. *)
Definition request_failed (i : Z) (msg : str) : str :=
  lit "[WARN] page=" ++ str_of_int i ++ lit " request failed: " ++ msg.

(** The addresses [fetch] was called with, oldest first: one entry for
    each call, whatever the session sent for it. *)
Definition fetched (tr : list event) : list str :=
  flat_map (fun e => match e with Fetched url => [url] | _ => [] end) tr.

(** The names of the files written, oldest first. *)
Definition written (tr : list event) : list str :=
  flat_map (fun e => match e with Wrote fname => [fname] | _ => [] end) tr.

(** ** Vocabulary of the further properties *)


(** The price of a row is what its raw price text normalises to. *)
Definition price_consistent (r : row) : Prop :=
  price r = from_option normalized None (price_raw r).

(** The containers each schema looks for. *)
Definition cards_of (soup : tag) : list tag := select sel_cards soup.

Definition blocks_of (soup : tag) : list tag :=
  find_all (lit "div") (Some (lit "a-elem")) soup.

(** The names of the files the program writes. *)
Definition debug_name (page_no : Z) : str :=
  lit "debug_page_" ++ str_of_int page_no ++ lit ".html".

Definition partial_name : str := lit "cars_kolesa_partial.csv".

Definition result_name : str := lit "cars_kolesa.csv".

(** The text of a debug file. *)
Definition debug_text (status_code : Z) (final_url html : str) : str :=
  lit "<!-- status_code=" ++ str_of_int status_code ++ lit " final_url="
  ++ final_url ++ lit " -->" ++ [LF] ++ html.

(** The rows page [i] contributes to the result: those extracted from it
    when it is answered and classifies as a listings page, none
    otherwise. *)
Definition page_rows (lxml : str → result (list node))
    (net : str → str + (Z * str * str)) (i : Z) : list row :=
  match net (page_url i) with
  | inl _ => []
  | inr (_, _, html) =>
      if is_listings_page html
      then match parse_listings lxml html with
           | Ok rows => rows
           | Raise _ => []
           end
      else []
  end.

(** [fetch] returns a response for page [i]. *)
Definition answered (net : str → str + (Z * str * str)) (i : Z) : bool :=
  match net (page_url i) with
  | inl _ => false
  | inr _ => true
  end.

(** The response for page [i] is a listings page. *)
Definition listed (net : str → str + (Z * str * str)) (i : Z) : bool :=
  match net (page_url i) with
  | inl _ => false
  | inr (_, _, html) => is_listings_page html
  end.

(** The line printed once the number of pages is known. *)
Definition total_line (last_page : Z) : str :=
  lit "Total pages (capped): " ++ str_of_int last_page.

(** The world in which the page loop starts: [fetch] was called for the
    first page and the number of pages printed. *)
Definition loop_start (w : world) (last_page : Z) : world :=
  {| files := files w;
     trace := trace w ++ [Fetched URL; Printed (total_line last_page)] |}.

(** * Sample inputs *)

(** The tenge sign, U+20B8. *)
Definition tenge : char := 8376%N.

Definition no_attrs : attributes := {| attr_class := []; attr_href := None |}.

Definition with_class (c : string) : attributes :=
  {| attr_class := [lit c]; attr_href := None |}.

(** The document lxml builds around the content of a body. *)
Definition html_body (cs : list node) : list node :=
  [Tag (lit "html") no_attrs [Tag (lit "body") no_attrs cs]].

(** A block page: no marker of either set. *)
Definition blocked_html : str :=
  lit "<html><head><title>Access denied</title></head><body>captcha</body></html>".

(** A line of script that quotes the class names of a card. *)
Definition quoting_markers : str :=
  lit "var sel = '.a-card__title .a-card__link';".


(** A page with one card of the primary schema whose title link has no
    text, and the document lxml makes of it. *)
Definition nameless_card_html : str :=
  lit "<div class=a-card><h5 class=a-card__title><a class=a-card__link href=/a/show/1></a></h5></div>".

Definition nameless_card_doc : list node :=
  html_body
    [Tag (lit "div") (with_class "a-card")
       [Tag (lit "h5") (with_class "a-card__title")
          [Tag (lit "a")
             {| attr_class := [lit "a-card__link"];
                attr_href := Some (lit "/a/show/1") |}
             []]]].

(** A page whose pager has the single label [0], and the document of a
    pager with one anchor of a given text. *)
Definition zero_pager_html : str := lit "<div class=pager><a>0</a></div>".

Definition pager_doc (text : str) : list node :=
  html_body
    [Tag (lit "div") (with_class "pager")
       [Tag (lit "a") no_attrs [NavigableString text]]].

(** A pager with the labels 1, 2 and 437 and a link to the next page. *)
Definition long_pager_doc : list node :=
  html_body
    [Tag (lit "div") (with_class "pager")
       [Tag (lit "a") no_attrs [NavigableString (lit "1")];
        Tag (lit "a") no_attrs [NavigableString (lit " 2 ")];
        Tag (lit "a") no_attrs [NavigableString (lit "437")];
        Tag (lit "a") no_attrs [NavigableString (lit "next")]]].

(** A site that answers every request with a block page. *)
Definition blocking_site (url : str) : str + (Z * str * str) :=
  inr (403, url, blocked_html).

(** A site no request to which ever gets through. *)
Definition unreachable_site (url : str) : str + (Z * str * str) :=
  inl (lit "Max retries exceeded").

(** A parser that makes the same document of every page, and one that
    finds nothing in any page. *)
Definition parsed (doc : list node) (html : str) : result (list node) :=
  Ok doc.

Definition no_parser (html : str) : result (list node) := Ok [].

Definition empty_world : world := {| files := ∅; trace := [] |}.

Definition fresh_locals : locals :=
  {| all_rows := []; consecutive_blocks := 0 |}.

Definition sample_row : row :=
  {| name := lit "Toyota Camry, 2020";
     price := Some 12500000;
     price_raw := Some (lit "12 500 000 " ++ [tenge]);
     desc := None;
     link := Some (lit "https://kolesa.kz/a/show/7") |}.

(** A world in which an earlier run left a result file behind. *)
Definition stale_world : world :=
  {| files := {[ lit "cars_kolesa.csv" := lit "left over from the last run" ]};
     trace := [] |}.

(** A listings page: one card of the primary schema and a pager that goes
    up to page 12. *)
Definition listing_html : str :=
  lit "<div class=a-card><h5 class=a-card__title><a class=a-card__link href=/a/show/7>Toyota Camry</a></h5><span class=a-card__price>12 500 000</span></div><div class=pager><a>1</a><a>2</a><a>12</a></div>".

Definition listing_doc : list node :=
  html_body
    [Tag (lit "div") (with_class "a-card")
       [Tag (lit "h5") (with_class "a-card__title")
          [Tag (lit "a")
             {| attr_class := [lit "a-card__link"];
                attr_href := Some (lit "/a/show/7") |}
             [NavigableString (lit "Toyota Camry")]];
        Tag (lit "span") (with_class "a-card__price")
          [NavigableString (lit "12 500 000")]];
     Tag (lit "div") (with_class "pager")
       [Tag (lit "a") no_attrs [NavigableString (lit "1")];
        Tag (lit "a") no_attrs [NavigableString (lit "2")];
        Tag (lit "a") no_attrs [NavigableString (lit "12")]]].

Definition listing_row : row :=
  {| name := lit "Toyota Camry";
     price := Some 12500000;
     price_raw := Some (lit "12 500 000");
     desc := None;
     link := Some (lit "https://kolesa.kz/a/show/7") |}.

(** A parser that knows the listings page above. *)
Definition sample_parser (html : str) : result (list node) :=
  if str_eqb html listing_html then Ok listing_doc else Ok [].

(** A site that serves listings on the pages 1 to 4 and block pages from
    page 5 on. *)
Definition site_blocking_from_5 (url : str) : str + (Z * str * str) :=
  if str_eqb url URL || existsb (fun i => str_eqb url (page_url i)) [2; 3; 4]
  then inr (200, url, listing_html)
  else inr (403, url, blocked_html).

(** A page of the legacy schema: one block with a title, a price and a
    site-relative link. *)
Definition legacy_html : str :=
  lit "<div class=a-elem><a class=a-el-info-title href=/a/show/9>Lada Niva</a><span class=a-el-info-price>900 000</span></div>".

Definition legacy_doc : list node :=
  html_body
    [Tag (lit "div") (with_class "a-elem")
       [Tag (lit "a")
          {| attr_class := [lit "a-el-info-title"];
             attr_href := Some (lit "/a/show/9") |}
          [NavigableString (lit "Lada Niva")];
        Tag (lit "span") (with_class "a-el-info-price")
          [NavigableString (lit "900 000")]]].

(** A listings page whose pager is labelled with a superscript two,
    U+00B2: a digit for [isdigit], not a decimal one. *)
Definition superscript_html : str :=
  lit "<div class=a-card><h5 class=a-card__title><a class=a-card__link>Kia</a></h5></div><div class=pager><a>" ++ [178%N] ++ lit "</a></div>".

Definition superscript_doc : list node :=
  html_body
    [Tag (lit "div") (with_class "a-card")
       [Tag (lit "h5") (with_class "a-card__title")
          [Tag (lit "a") (with_class "a-card__link")
             [NavigableString (lit "Kia")]]];
     Tag (lit "div") (with_class "pager")
       [Tag (lit "a") no_attrs [NavigableString [178%N]]]].

(** A page with a card of the primary schema and a block of the legacy
    schema. *)
Definition both_schemas_html : str :=
  lit "<div class=a-card><h5 class=a-card__title><a class=a-card__link href=/a/show/7>Toyota Camry</a></h5></div><div class=a-elem><a class=a-el-info-title href=/a/show/9>Lada Niva</a></div>".

Definition both_schemas_doc : list node :=
  html_body
    [Tag (lit "div") (with_class "a-card")
       [Tag (lit "h5") (with_class "a-card__title")
          [Tag (lit "a")
             {| attr_class := [lit "a-card__link"];
                attr_href := Some (lit "/a/show/7") |}
             [NavigableString (lit "Toyota Camry")]]];
     Tag (lit "div") (with_class "a-elem")
       [Tag (lit "a")
          {| attr_class := [lit "a-el-info-title"];
             attr_href := Some (lit "/a/show/9") |}
          [NavigableString (lit "Lada Niva")]]].

(** A run of 4301 nines, one digit more than [int] converts, and a
    listings page whose card gives it as the price. *)
Definition overlong_digits : str := List.repeat 57%N 4301.

Definition overlong_html : str :=
  lit "<div class=a-card><h5 class=a-card__title><a class=a-card__link>Kia</a></h5><span class=a-card__price>"
  ++ overlong_digits ++ lit "</span></div>".

Definition overlong_doc : list node :=
  html_body
    [Tag (lit "div") (with_class "a-card")
       [Tag (lit "h5") (with_class "a-card__title")
          [Tag (lit "a") (with_class "a-card__link")
             [NavigableString (lit "Kia")]];
        Tag (lit "span") (with_class "a-card__price")
          [NavigableString overlong_digits]]].

(** A site that serves that page everywhere but on the first page, where
    it serves the listings page with the pager. *)
Definition site_overlong_from_2 (url : str) : str + (Z * str * str) :=
  if str_eqb url URL then inr (200, url, listing_html)
  else inr (200, url, overlong_html).

Definition overlong_parser (html : str) : result (list node) :=
  if str_eqb html listing_html then Ok listing_doc else Ok overlong_doc.

(** * Properties *)

(** ** Substrings *)

Lemma startswith_spec (p s : str) :
  startswith s p = true ↔ ∃ t, s = p ++ t.
Proof.
  revert s. induction p as [|c p IH]; intros s; simpl.
  - split; [intros _; by exists s | done].
  - destruct s as [|d s].
    + split; [done | intros [t Ht]; discriminate].
    + destruct (N.eqb_spec c d) as [->|Hne].
      * rewrite IH. split; intros [t Ht]; exists t; simpl in *; congruence.
      * split; [done | intros [t Ht]; simpl in Ht; congruence].
Qed.

Lemma contains_spec (needle hay : str) :
  contains needle hay = true ↔ occurs needle hay.
Proof.
  induction hay as [|d hay IH].
  - simpl. rewrite orb_false_r, startswith_spec. split.
    + intros [t Ht]. exists [], t. exact Ht.
    + intros ([|b before] & after & H); [exists after; exact H | discriminate].
  - cbn [contains]. rewrite orb_true_iff, startswith_spec, IH. split.
    + intros [[t Ht] | (before & after & H)].
      * exists [], t. exact Ht.
      * exists (d :: before), after. by rewrite H.
    + intros ([|b before] & after & H).
      * left. exists after. exact H.
      * right. exists before, after. simpl in H. congruence.
Qed.

Lemma occurs_extend (needle hay p s : str) :
  occurs needle hay → occurs needle (p ++ hay ++ s).
Proof.
  intros (before & after & ->).
  exists (p ++ before), (after ++ s). by rewrite <- !app_assoc.
Qed.

Lemma contains_extend (needle hay p s : str) :
  contains needle hay = true → contains needle (p ++ hay ++ s) = true.
Proof. rewrite !contains_spec. apply occurs_extend. Qed.

(** The classifier says yes exactly when one of the two marker sets is
    there. *)
Lemma is_listings_page_spec (html : str) :
  is_listings_page html = true ↔
  (occurs (lit "a-card__title") html ∧ occurs (lit "a-card__link") html)
  ∨ (occurs (lit "a-elem") html
     ∧ (occurs (lit "a-el-info-title") html
        ∨ occurs (lit "a-el-info-price") html)).
Proof.
  unfold is_listings_page. rewrite <- !contains_spec.
  destruct (contains (lit "a-card__title") html),
           (contains (lit "a-card__link") html),
           (contains (lit "a-elem") html),
           (contains (lit "a-el-info-title") html),
           (contains (lit "a-el-info-price") html); simpl; intuition congruence.
Qed.

(** ** Claim C8 *)

(** C8: a body that holds neither the primary markers (["a-card__title"]
    together with ["a-card__link"]) nor the legacy markers (["a-elem"]
    together with ["a-el-info-title"] or ["a-el-info-price"]) is not a
    listings page. *)
Theorem is_listings_page_without_markers (html : str) :
  ¬ (occurs (lit "a-card__title") html ∧ occurs (lit "a-card__link") html) →
  ¬ (occurs (lit "a-elem") html
     ∧ (occurs (lit "a-el-info-title") html
        ∨ occurs (lit "a-el-info-price") html)) →
  is_listings_page html = false.
Proof.
  intros Hnew Hold. apply not_true_is_false. rewrite is_listings_page_spec.
  tauto.
Qed.

Lemma is_listings_page_without_markers_witness :
  is_listings_page blocked_html = false.
Proof.
  apply (is_listings_page_without_markers blocked_html).
  - intros [H _]. apply contains_spec in H. vm_compute in H. discriminate.
  - intros [H _]. apply contains_spec in H. vm_compute in H. discriminate.
Defined.

(** ** Claim C10 *)

(** C10: the classifier is monotone under containment: a body on which it
    answers yes still gets yes with any text put before and after it, so a
    response that merely quotes the markers somewhere passes. *)
Theorem is_listings_page_monotone (h p s : str) :
  is_listings_page h = true → is_listings_page (p ++ h ++ s) = true.
Proof.
  rewrite !is_listings_page_spec.
  intros [[H1 H2] | [H1 [H2 | H2]]]; eauto 6 using occurs_extend.
Qed.

Lemma is_listings_page_monotone_witness :
  is_listings_page
    (lit "<html><body>Blocked<script>" ++ quoting_markers
     ++ lit "</script></body></html>") = true.
Proof.
  apply (is_listings_page_monotone quoting_markers).
  vm_compute. reflexivity.
Defined.

(** ** Numerals *)

Lemma existsb_find {A} (f : A → bool) (l : list A) :
  existsb f l = true → ∃ x, List.find f l = Some x.
Proof.
  induction l as [|a l IH]; simpl; [done |].
  destruct (f a); [eauto | exact IH].
Qed.

Lemma decimal_value_of_decimal (c : char) :
  isdecimal_char c = true → ∃ d, decimal_value c = Some d.
Proof.
  unfold isdecimal_char, in_ranges, decimal_value. intros H.
  apply existsb_find in H as [r ->]. eauto.
Qed.

Lemma decimal_value_None (c : char) :
  isdecimal_char c = false → decimal_value c = None.
Proof.
  unfold isdecimal_char, in_ranges, decimal_value. intros H.
  destruct (List.find _ _) as [r|] eqn:Hf; [|done].
  apply find_some in Hf as [Hin Hr].
  assert (existsb (fun r => (fst r <=? c)%N && (c <=? snd r)%N)
            decimal_ranges = true) as Hex.
  { apply existsb_exists. eauto. }
  congruence.
Qed.

Lemma digit_value_bounds (c : char) : 0 ≤ digit_value c ≤ 9.
Proof.
  unfold digit_value, decimal_value.
  destruct (List.find _ _) as [r|]; cbv beta iota; [|lia].
  assert ((c - fst r) mod 10 < 10)%N as H by (by apply N.mod_upper_bound).
  revert H. generalize ((c - fst r) mod 10)%N. lia.
Qed.

Lemma int_digits_decimal (s : str) (acc : Z) :
  forallb isdecimal_char s = true →
  int_digits acc s = Ok (numeral_from acc s).
Proof.
  revert acc. induction s as [|c s IH]; intros acc H; simpl in *; [done |].
  apply andb_true_iff in H as [Hc Hs].
  unfold digit_value. apply decimal_value_of_decimal in Hc as [d ->].
  by apply IH.
Qed.

Lemma int_digits_not_decimal (s : str) (acc : Z) :
  forallb isdecimal_char s = false → int_digits acc s = Raise ValueError.
Proof.
  revert acc. induction s as [|c s IH]; intros acc H; simpl in *; [done |].
  destruct (isdecimal_char c) eqn:Hc; simpl in H.
  - apply decimal_value_of_decimal in Hc as [d ->]. by apply IH.
  - by rewrite (decimal_value_None _ Hc).
Qed.


(** [int] succeeds exactly on the non-empty runs of decimal digits that
    are not too long. *)
Lemma int_decimal (s : str) :
  truthy s = true → forallb isdecimal_char s = true → over_cap s = false →
  int s = Ok (numeral s).
Proof.
  destruct s as [|c s]; [done |]. intros _ H Hcap.
  unfold int. fold (over_cap (c :: s)). rewrite Hcap.
  by apply int_digits_decimal.
Qed.

Lemma int_over_cap (s : str) : over_cap s = true → int s = Raise ValueError.
Proof.
  destruct s as [|c s]; [done |]. intros Hcap.
  unfold int. fold (over_cap (c :: s)). by rewrite Hcap.
Qed.

Lemma int_not_decimal (s : str) :
  forallb isdecimal_char s = false → int s = Raise ValueError.
Proof.
  destruct s as [|c s]; [done |]. intros H.
  unfold int. destruct (_ <? _); [done |]. by apply int_digits_not_decimal.
Qed.

(** Whatever [int] raises is a [ValueError]. *)
Lemma int_raises (s : str) (e : exn) : int s = Raise e → e = ValueError.
Proof.
  destruct (forallb isdecimal_char s) eqn:Hdec.
  - destruct (over_cap s) eqn:Hcap.
    + rewrite (int_over_cap _ Hcap). by intros [= <-].
    + destruct s as [|c s]; [by intros [= <-] |].
      by rewrite (int_decimal (c :: s) eq_refl Hdec Hcap).
  - rewrite (int_not_decimal _ Hdec). by intros [= <-].
Qed.

Lemma numeral_from_bounds (s : str) (acc : Z) :
  0 ≤ acc → acc ≤ numeral_from acc s.
Proof.
  revert acc. induction s as [|c s IH]; intros acc Hacc; simpl; [lia |].
  pose proof (digit_value_bounds c).
  etrans; [|apply IH]; lia.
Qed.

Lemma numeral_nonneg (s : str) : 0 ≤ numeral s.
Proof. by apply numeral_from_bounds. Qed.

Lemma digits_of_decimal (text : str) :
  forallb isdecimal_char (digits_of text) = true.
Proof.
  unfold digits_of. induction text as [|c text IH]; simpl; [done |].
  destruct (isdecimal_char c) eqn:Hc; simpl; [by rewrite Hc |done].
Qed.


(** ** Price normalisation *)

Lemma Ok_inj {A} (a b : A) : Ok a = Ok b → a = b.
Proof. by intros [= ->]. Qed.

(** [_norm_price] raises exactly on the texts with too many digits. *)
Lemma norm_price_eq (text : str) :
  _norm_price text =
  if over_cap (digits_of text) then Raise ValueError
  else Ok (normalized text).
Proof.
  unfold _norm_price, normalized.
  destruct text as [|c text]; [done |]. cbn [truthy negb].
  destruct (truthy (digits_of (c :: text))) eqn:Hd.
  - destruct (over_cap _) eqn:Hcap.
    + by rewrite (int_over_cap _ Hcap).
    + by rewrite (int_decimal _ Hd (digits_of_decimal _) Hcap).
  - destruct (digits_of (c :: text)); [done | discriminate].
Qed.

Lemma price_of_eq (price_raw : option str) :
  price_of price_raw =
  if price_over_cap price_raw then Raise ValueError
  else Ok (from_option normalized None price_raw).
Proof.
  destruct price_raw as [[|c t]|]; [done | | done].
  cbn [price_of truthy price_over_cap from_option]. apply norm_price_eq.
Qed.

(** The rows of one card of either schema, without the exception
    plumbing. *)
Lemma card_new_eq (c : tag) :
  card_new c =
  match select_one sel_title c with
  | None => Ok []
  | Some title_a =>
      let price_raw :=
        option_map (get_text_strip (lit " ")) (select_one sel_price c) in
      if price_over_cap price_raw then Raise ValueError
      else
        Ok [{| name := get_text_strip [] title_a;
               price := from_option normalized None price_raw;
               price_raw := price_raw;
               desc := option_map (get_text_strip (lit " "))
                         (select_one sel_desc c);
               link := match get_href title_a with
                       | Some h => if truthy h && startswith h (lit "/")
                                   then Some (BASE_URL ++ h) else Some h
                       | None => None
                       end |}]
  end.
Proof.
  unfold card_new. destruct (select_one sel_title c) as [title_a|]; [|done].
  rewrite price_of_eq. cbv zeta. destruct (price_over_cap _); [done |].
  cbn [rbind]. do 3 f_equal. by destruct (get_href title_a).
Qed.

Lemma card_old_eq (b : tag) :
  card_old b =
  let title_a := or_else (find (lit "a") (lit "a-el-info-title") b)
                         (find (lit "span") (lit "a-el-info-title") b) in
  let price_raw :=
    option_map (get_text_strip (lit " "))
      (or_else (find (lit "span") (lit "a-el-info-price") b)
               (find (lit "span") (lit "price") b)) in
  if price_over_cap price_raw then Raise ValueError
  else
    Ok match option_map (get_text_strip []) title_a with
       | Some nm =>
           if truthy nm
           then [{| name := nm;
                    price := from_option normalized None price_raw;
                    price_raw := price_raw;
                    desc := option_map (get_text_strip (lit " "))
                              (or_else
                                 (find (lit "div") (lit "a-el-info-description") b)
                                 (find (lit "div") (lit "a-search-description") b));
                    link := match title_a with
                            | Some a =>
                                match get_href a with
                                | Some href =>
                                    if truthy href
                                    then if startswith href (lit "/")
                                         then Some (BASE_URL ++ href)
                                         else Some href
                                    else None
                                | None => None
                                end
                            | None => None
                            end |}]
           else []
       | None => []
       end.
Proof.
  unfold card_old. rewrite price_of_eq. cbv zeta.
  destruct (price_over_cap _); [done |]. cbn [rbind].
  destruct (option_map (get_text_strip []) _) as [nm|]; [|done].
  by destruct (truthy nm).
Qed.

(** What a card of either schema returns, when it returns. *)
Lemma card_new_rows (c : tag) (new : list row) :
  card_new c = Ok new →
  new = match select_one sel_title c with
        | None => []
        | Some title_a =>
            let price_raw :=
              option_map (get_text_strip (lit " ")) (select_one sel_price c) in
            [{| name := get_text_strip [] title_a;
                price := from_option normalized None price_raw;
                price_raw := price_raw;
                desc := option_map (get_text_strip (lit " "))
                          (select_one sel_desc c);
                link := match get_href title_a with
                        | Some h => if truthy h && startswith h (lit "/")
                                    then Some (BASE_URL ++ h) else Some h
                        | None => None
                        end |}]
        end.
Proof.
  rewrite card_new_eq. destruct (select_one sel_title c); [|by intros <-%Ok_inj].
  cbv zeta. destruct (price_over_cap _); [done |]. by intros <-%Ok_inj.
Qed.

Lemma card_old_rows (b : tag) (new : list row) :
  card_old b = Ok new →
  new =
  let title_a := or_else (find (lit "a") (lit "a-el-info-title") b)
                         (find (lit "span") (lit "a-el-info-title") b) in
  let price_raw :=
    option_map (get_text_strip (lit " "))
      (or_else (find (lit "span") (lit "a-el-info-price") b)
               (find (lit "span") (lit "price") b)) in
  match option_map (get_text_strip []) title_a with
  | Some nm =>
      if truthy nm
      then [{| name := nm;
               price := from_option normalized None price_raw;
               price_raw := price_raw;
               desc := option_map (get_text_strip (lit " "))
                         (or_else
                            (find (lit "div") (lit "a-el-info-description") b)
                            (find (lit "div") (lit "a-search-description") b));
               link := match title_a with
                       | Some a =>
                           match get_href a with
                           | Some href =>
                               if truthy href
                               then if startswith href (lit "/")
                                    then Some (BASE_URL ++ href)
                                    else Some href
                               else None
                           | None => None
                           end
                       | None => None
                       end |}]
      else []
  | None => []
  end.
Proof.
  rewrite card_old_eq. cbv zeta. destruct (price_over_cap _); [done |].
  by intros <-%Ok_inj.
Qed.

(** A property of the rows each iteration adds holds of all rows. *)
Lemma for_each_Forall {A B} (P : B → Prop) (body : A → result (list B))
    xs out out' :
  (∀ x new, body x = Ok new → Forall P new) →
  Forall P out → for_each body xs out = Ok out' → Forall P out'.
Proof.
  intros Hbody. revert out. induction xs as [|x xs IH]; intros out Hout; simpl.
  - by intros [= <-].
  - destruct (body x) as [new|e] eqn:Hx; simpl; [|done].
    apply IH. apply Forall_app. eauto.
Qed.

(** Every row of the legacy schema has a name. *)
Lemma parse_cards_old_named (soup : tag) (rows : list row) :
  parse_cards_old soup = Ok rows → Forall (fun r => name r ≠ []) rows.
Proof.
  apply for_each_Forall; [|constructor].
  intros b new ->%card_old_rows. cbv zeta.
  destruct (option_map _ _) as [[|ch nm]|]; simpl; auto.
Qed.

(** What [parse_listings] does with the outcome of the parser and of the
    primary extractor. *)
Lemma parse_listings_eq (lxml : str → result (list node)) (html : str) :
  parse_listings lxml html =
  match BeautifulSoup lxml html with
  | Raise e => Raise e
  | Ok soup =>
      match parse_cards_new soup with
      | Raise e => Raise e
      | Ok [] => parse_cards_old soup
      | Ok (r :: new) => Ok (r :: new)
      end
  end.
Proof.
  unfold parse_listings. destruct (BeautifulSoup lxml html) as [soup|e]; [|done].
  cbn [rbind]. unfold parse_listings_soup.
  destruct (parse_cards_new soup) as [[|r new]|e]; [|done..].
  cbn [rbind app]. by destruct (parse_cards_old soup).
Qed.

(** ** Claim C4 *)



(** ** Claim C5 *)

(** C5: [parse_listings] returns the records of the primary extractor
    whenever there is at least one, without running the legacy extractor;
    only when the primary extractor gives no record does it run the legacy
    one, and then returns what that one returns; never both.  An exception
    of the parser or of the primary extractor ends it. *)
Theorem parse_listings_fallback (lxml : str → result (list node))
    (html : str) :
  (∀ e, BeautifulSoup lxml html = Raise e → parse_listings lxml html = Raise e)
  ∧ (∀ soup,
       BeautifulSoup lxml html = Ok soup →
       (∀ r new, parse_cards_new soup = Ok (r :: new) →
                 parse_listings lxml html = Ok (r :: new))
       ∧ (parse_cards_new soup = Ok [] →
          parse_listings lxml html = parse_cards_old soup)
       ∧ (∀ e, parse_cards_new soup = Raise e →
               parse_listings lxml html = Raise e)).
Proof.
  rewrite parse_listings_eq. split.
  - by intros e ->.
  - intros soup ->. split; [|split].
    + by intros r new ->.
    + by intros ->.
    + by intros e ->.
Qed.

(** On a page with a card and a legacy block, only the card is returned,
    although the legacy extractor would find the block. *)
Lemma parse_listings_fallback_witness :
  ∃ soup card block,
    BeautifulSoup (parsed both_schemas_doc) both_schemas_html = Ok soup
    ∧ parse_cards_old soup = Ok [block]
    ∧ parse_listings (parsed both_schemas_doc) both_schemas_html = Ok [card]
    ∧ name card = lit "Toyota Camry"
    ∧ name block = lit "Lada Niva".
Proof.
  destruct (parse_listings_fallback (parsed both_schemas_doc)
              both_schemas_html) as [_ H].
  eexists _, _, _. split; [reflexivity |].
  split; [by vm_compute |]. split.
  - eapply H; [reflexivity |]. by vm_compute.
  - by vm_compute.
Defined.

(** ** Claim C6 *)

(** C6: every extracted record should have a non-empty name.  The legacy
    schema drops a card whose name is empty ([parse_cards_old_named]), the
    primary schema only drops a card without a title link: on a page whose
    card has a title link without text, the classifier accepts the page and
    extraction returns a record whose name is the empty string. *)
Theorem parse_listings_empty_name (lxml : str → result (list node)) :
  lxml nameless_card_html = Ok nameless_card_doc →
  is_listings_page nameless_card_html = true
  ∧ parse_listings lxml nameless_card_html =
    Ok [{| name := [];
           price := None;
           price_raw := None;
           desc := None;
           link := Some (lit "https://kolesa.kz/a/show/1") |}].
Proof.
  intros Hdoc. split; [by vm_compute |].
  unfold parse_listings, BeautifulSoup. rewrite Hdoc. by vm_compute.
Qed.

Lemma parse_listings_empty_name_witness :
  ∃ r, parse_listings (parsed nameless_card_doc) nameless_card_html = Ok [r]
       ∧ name r = [].
Proof.
  eexists. split.
  - apply (parse_listings_empty_name (parsed nameless_card_doc)). reflexivity.
  - reflexivity.
Defined.

(** ** Claim C3 *)

Lemma pager_nums_readable (anchors : list tag) (nums : list Z) :
  all_readable (List.filter isdigit (List.map label anchors)) = true →
  pager_nums anchors nums =
  Ok (nums ++ List.map numeral (List.filter isdigit (List.map label anchors))).
Proof.
  unfold all_readable.
  revert nums. induction anchors as [|a anchors IH]; intros nums H; simpl.
  - by rewrite app_nil_r.
  - fold (label a). simpl in H. destruct (isdigit (label a)) eqn:Hd.
    + simpl in H. apply andb_true_iff in H as [Ha H].
      apply andb_true_iff in Ha as [Ha Hcap]. apply negb_true_iff in Hcap.
      apply andb_true_iff in Hd as [Hne _].
      rewrite (int_decimal _ Hne Ha Hcap). simpl.
      rewrite (IH _ H). by rewrite <- app_assoc.
    + by apply IH.
Qed.

Lemma py_max_ge (n : Z) (nums : list Z) :
  n ≤ py_max n nums ∧ Forall (fun x => x ≤ py_max n nums) nums.
Proof.
  unfold py_max. revert n. induction nums as [|x nums IH]; intros n; simpl.
  - split; [lia | constructor].
  - destruct (IH (Z.max n x)) as [H1 H2]. split; [lia |].
    constructor; [lia | exact H2].
Qed.

Lemma py_max_in (n : Z) (nums : list Z) : In (py_max n nums) (n :: nums).
Proof.
  unfold py_max. revert n. induction nums as [|x nums IH]; intros n; simpl.
  - by left.
  - destruct (IH (Z.max n x)) as [H | H].
    + destruct (Z.max_spec n x) as [[_ Hm] | [_ Hm]]; rewrite Hm in *; auto.
    + right; right; exact H.
Qed.

Example pages_count_zero :
  pages_count (parsed (pager_doc (lit "0"))) zero_pager_html = Ok 0.
Proof. by vm_compute. Qed.

(** [isdigit] accepts the superscript two, [int] does not. *)
Example pages_count_superscript :
  pages_count (parsed (pager_doc [178%N])) [] = Raise ValueError.
Proof. by vm_compute. Qed.

(** C3 as stated fails: the page [zero_pager_html] has a pagination
    control, its only numeric label is [0], and [pages_count] returns 0 for
    it, which is below 1. *)
Lemma pages_count_not_at_least_one :
  (∃ soup pager,
     BeautifulSoup (parsed (pager_doc (lit "0"))) zero_pager_html = Ok soup
     ∧ pager_of soup = Some pager
     ∧ numeric_labels pager = [lit "0"])
  ∧ pages_count (parsed (pager_doc (lit "0"))) zero_pager_html = Ok 0
  ∧ ¬ (∃ r, pages_count (parsed (pager_doc (lit "0"))) zero_pager_html = Ok r
            ∧ 1 ≤ r ≤ MAX_PAGES).
Proof.
  split.
  { eexists _, _. split; [reflexivity |]. split; [reflexivity | by vm_compute]. }
  split; [apply pages_count_zero |].
  intros (r & Hr & Hlo & _).
  rewrite pages_count_zero in Hr. injection Hr as <-. lia.
Qed.

(** C3, amended: without a pagination control, or without a numeric label
    in it, [pages_count] returns 1; with numeric labels written in decimal
    digits, at most 4300 of them each, it returns the largest of them
    clamped to [MAX_PAGES], which never exceeds [MAX_PAGES], is never
    negative, and is at least 1 as soon as one label is not zero. *)
Theorem pages_count_clamped (lxml : str → result (list node)) (html : str)
    (soup : tag) :
  BeautifulSoup lxml html = Ok soup →
  (pager_of soup = None → pages_count lxml html = Ok 1)
  ∧ (∀ pager, pager_of soup = Some pager → numeric_labels pager = [] →
       pages_count lxml html = Ok 1)
  ∧ (∀ pager, pager_of soup = Some pager →
       numeric_labels pager ≠ [] →
       all_readable (numeric_labels pager) = true →
       ∃ m, In m (List.map numeral (numeric_labels pager))
            ∧ Forall (fun n => n ≤ m) (List.map numeral (numeric_labels pager))
            ∧ pages_count lxml html = Ok (Z.min m MAX_PAGES)
            ∧ 0 ≤ Z.min m MAX_PAGES ≤ MAX_PAGES
            ∧ (Exists (fun n => n ≠ 0) (List.map numeral (numeric_labels pager)) →
               1 ≤ Z.min m MAX_PAGES)).
Proof.
  intros Hsoup. unfold pages_count. rewrite Hsoup. cbn [rbind].
  unfold pages_count_soup. fold (pager_of soup).
  split; [by intros -> |]. split.
  - intros pager -> Hnone.
    rewrite pager_nums_readable; fold (numeric_labels pager);
      by rewrite Hnone.
  - intros pager -> Hsome Hdec.
    rewrite pager_nums_readable by exact Hdec. fold (numeric_labels pager).
    simpl. destruct (numeric_labels pager) as [|t ts]; [done |]. simpl.
    set (n := numeral t). set (ns := List.map numeral ts).
    exists (py_max n ns).
    destruct (py_max_ge n ns) as [Hn Hns].
    assert (0 ≤ n) by apply numeral_nonneg.
    assert (Forall (fun x => 0 ≤ x) ns) as Hpos.
    { subst ns. apply List.Forall_forall. intros x [y [<- _]]%in_map_iff.
      apply numeral_nonneg. }
    split; [apply py_max_in |]. split; [by constructor |]. split; [done |].
    unfold MAX_PAGES. split; [lia |].
    intros [Hx | Hx]%Exists_cons; [lia |].
    apply List.Exists_exists in Hx as (x & Hin & Hx).
    rewrite List.Forall_forall in Hns, Hpos.
    specialize (Hns x Hin). specialize (Hpos x Hin). lia.
Qed.

Lemma pages_count_clamped_witness :
  pages_count (parsed long_pager_doc) [] = Ok MAX_PAGES.
Proof.
  destruct (pages_count_clamped (parsed long_pager_doc) [] _ eq_refl)
    as (_ & _ & H).
  destruct (H _ eq_refl) as (m & _ & Hmax & Hr & _).
  - by vm_compute.
  - by vm_compute.
  - rewrite Hr.
    match type of Hmax with
    | Forall _ ?l => let l' := eval vm_compute in l in change l with l' in Hmax
    end.
    apply Forall_cons in Hmax as [_ Hmax].
    apply Forall_cons in Hmax as [_ Hmax].
    apply Forall_cons in Hmax as [Hm _].
    f_equal. unfold MAX_PAGES. apply Z.min_r. lia.
Defined.

(** ** The page loop *)

Section Loop.

Variable lxml : str → result (list node).
Variable net : str → str + (Z * str * str).

Ltac run :=
  unfold loop_body, main, save_debug_html, save_to_csv, fetch, print, sleep,
    try_request, write_file, emit, lift, bind, ret;
  cbn [fst snd files trace all_rows consecutive_blocks].

(** A network failure: the iteration logs, pauses and goes on; the
    variables of the loop and the files are as before. *)
Lemma loop_body_network_failure (i : Z) (st : locals) (w : world) (msg : str) :
  net (page_url i) = inl msg →
  loop_body lxml net i st w =
  (Ok (Next, st),
   {| files := files w;
      trace := trace w ++ [Fetched (page_url i);
                           Printed (request_failed i msg);
                           Slept recovery_pause] |}).
Proof.
  intros H. run. rewrite H. cbn [fst snd files trace].
  by rewrite <- !app_assoc.
Qed.



Lemma loop_body_listings_raises (i : Z) (st : locals) (w : world)
    (status : Z) (final_url html : str) (e : exn) :
  net (page_url i) = inr (status, final_url, html) →
  is_listings_page html = true →
  parse_listings lxml html = Raise e →
  loop_body lxml net i st w =
  (Raise e, {| files := files w;
               trace := trace w ++ [Fetched (page_url i)] |}).
Proof.
  intros H Hc Hrows. run. rewrite H. cbn [fst snd files trace]. rewrite Hc.
  cbn [negb]. by rewrite Hrows.
Qed.


Lemma for_loop_cons (i : Z) (rest : list Z) (st : locals) (w : world) :
  for_loop lxml net (i :: rest) st w =
  match loop_body lxml net i st w with
  | (Ok (Next, st'), w') => for_loop lxml net rest st' w'
  | r => r
  end.
Proof.
  cbn [for_loop]. unfold bind, ret.
  by destruct (loop_body lxml net i st w) as [[[[] st']|e] w'].
Qed.

(** The state in which the loop meets the pages [todo] is the one the
    pages [done] before them leave, unless the loop was left among them. *)
Lemma for_loop_app (done todo : list Z) (st : locals) (w : world) :
  for_loop lxml net (done ++ todo) st w =
  match for_loop lxml net done st w with
  | (Ok (Next, st'), w') => for_loop lxml net todo st' w'
  | r => r
  end.
Proof.
  revert st w. induction done as [|i done IH]; intros st w; [done |].
  rewrite <- app_comm_cons, !for_loop_cons.
  destruct (loop_body lxml net i st w) as [[[[] st']|e] w']; [apply IH | done..].
Qed.


End Loop.

(** ** Claim C1 *)



(** ** Claim C7 *)

Lemma fetched_app (tr tr' : list event) :
  fetched (tr ++ tr') = fetched tr ++ fetched tr'.
Proof. apply flat_map_app. Qed.

Lemma written_app (tr tr' : list event) :
  written (tr ++ tr') = written tr ++ written tr'.
Proof. apply flat_map_app. Qed.

(** C7: a network failure on a page of the loop is skipped: the iteration
    goes on to the next page index and leaves the failure counter, the
    accumulated rows and the files as they were; so a run of network
    failures, however long, never leaves the loop early: every page of the
    range is still fetched. *)
Theorem network_failure_is_skipped
    (lxml : str → result (list node)) (net : str → str + (Z * str * str)) :
  (∀ i st w msg,
     net (page_url i) = inl msg →
     ∃ w', loop_body lxml net i st w = (Ok (Next, st), w')
           ∧ files w' = files w
           ∧ ∀ rest, for_loop lxml net (i :: rest) st w
                     = for_loop lxml net rest st w')
  ∧ (∀ pages st w,
       Forall (fun i => ∃ msg, net (page_url i) = inl msg) pages →
       ∃ w', for_loop lxml net pages st w = (Ok (Next, st), w')
             ∧ files w' = files w
             ∧ fetched (trace w') = fetched (trace w) ++ List.map page_url pages).
Proof.
  split.
  - intros i st w msg Hnet. eexists. split; [|split].
    + by apply loop_body_network_failure.
    + done.
    + intros rest. by rewrite for_loop_cons, (loop_body_network_failure _ _ _ _ _ _ Hnet).
  - intros pages. induction pages as [|i pages IH]; intros st w Hall.
    + exists w. cbn [for_loop List.map]. by rewrite app_nil_r.
    + apply Forall_cons in Hall as [[msg Hnet] Hall].
      rewrite for_loop_cons, (loop_body_network_failure _ _ _ _ _ _ Hnet).
      destruct (IH st {| files := files w;
                         trace := trace w ++ [Fetched (page_url i);
                                              Printed (request_failed i msg);
                                              Slept recovery_pause] |} Hall)
        as (w' & -> & Hfiles & Hfetched).
      exists w'. split; [done |]. split; [done |].
      rewrite Hfetched. cbn [trace]. rewrite fetched_app. cbn [List.map].
      by rewrite <- app_assoc.
Qed.

Lemma network_failure_is_skipped_witness :
  ∃ w',
    for_loop no_parser unreachable_site (range 2 9) fresh_locals empty_world
    = (Ok (Next, fresh_locals), w')
    ∧ files w' = ∅
    ∧ fetched (trace w') = List.map page_url (range 2 9).
Proof.
  destruct (network_failure_is_skipped no_parser unreachable_site)
    as [_ Hrun].
  apply (Hrun (range 2 9) fresh_locals empty_world).
  vm_compute. repeat constructor; by eexists.
Defined.

(** ** Claim C2 *)



(** ** Claim C9 *)

(** C9: a flush replaces the content of the target file by the header row
    [name,price,price_raw,desc,link] followed by one row per record, in the
    order of the list; what the file held before plays no part, and no
    other file changes. *)
Theorem save_to_csv_overwrites (rows : list row) (filename : str) (w : world) :
  ∃ w',
    save_to_csv rows filename w = (Ok tt, w')
    ∧ files w' !! filename =
      Some ([BOM] ++ (lit "name,price,price_raw,desc,link" ++ [CR; LF])
            ++ List.concat (List.map (fun r => csv_line (row_cells r)) rows))
    ∧ (∀ other, other ≠ filename → files w' !! other = files w !! other)
    ∧ (∀ old : world,
         files (snd (save_to_csv rows filename old)) !! filename
         = files w' !! filename)
    ∧ trace w' = trace w ++ [Wrote filename].
Proof.
  unfold save_to_csv, write_file. eexists. split; [reflexivity |].
  cbn [files trace snd]. split; [by rewrite lookup_insert_eq |].
  split; [intros other Hne; by rewrite lookup_insert_ne |].
  split; [intros old; by rewrite !lookup_insert_eq | done].
Qed.

Lemma save_to_csv_overwrites_witness :
  ∃ w',
    save_to_csv [sample_row] (lit "cars_kolesa.csv") stale_world = (Ok tt, w')
    ∧ files w' !! lit "cars_kolesa.csv" =
      Some ([BOM] ++ lit "name,price,price_raw,desc,link" ++ [CR; LF]
            ++ [dquote] ++ lit "Toyota Camry, 2020" ++ [dquote]
            ++ lit ",12500000,12 500 000 " ++ [tenge]
            ++ lit ",,https://kolesa.kz/a/show/7" ++ [CR; LF])
    ∧ files w' !! lit "debug_page_1.html" = None.
Proof.
  destruct (save_to_csv_overwrites [sample_row] (lit "cars_kolesa.csv")
              stale_world) as (w' & Hsave & Hfile & Hother & _).
  exists w'. split; [exact Hsave |]. split.
  - rewrite Hfile. by vm_compute.
  - rewrite Hother.
    + apply lookup_singleton_ne. intros H. vm_compute in H. discriminate.
    + intros H. vm_compute in H. discriminate.
Defined.

(** ** A run that is cut short

    Pages 1 to 4 are listings, every page from 5 on is blocked: the run
    fetches the pages 1 to 9, writes the debug files of the pages 5 to 9,
    stops, and the result file holds the rows of the pages 1 to 4. *)
Example run_blocked_from_5 :
  let (r, w) := main sample_parser site_blocking_from_5 empty_world in
  r = Ok tt
  ∧ fetched (trace w) = URL :: List.map page_url [2; 3; 4; 5; 6; 7; 8; 9]
  ∧ written (trace w) =
    [lit "debug_page_5.html"; lit "debug_page_6.html"; lit "debug_page_7.html";
     lit "debug_page_8.html"; lit "debug_page_9.html"; lit "cars_kolesa.csv"]
  ∧ files w !! lit "cars_kolesa.csv" =
    Some (csv_text [listing_row; listing_row; listing_row; listing_row]).
Proof. by vm_compute. Qed.

(** ** A run that ends with an exception

    The first page is a listings page; the second holds a card whose price
    has 4301 digits.  In the extraction of the second page [int] raises
    [ValueError], which nothing catches: the run ends there, after two
    calls of [fetch], and no file is written, so the rows of the first page
    are lost. *)
Example run_overlong_price :
  let (r, w) := main overlong_parser site_overlong_from_2 empty_world in
  r = Raise ValueError
  ∧ fetched (trace w) = [URL; page_url 2]
  ∧ written (trace w) = [].
Proof. by vm_compute. Qed.

(** * Further properties *)

(** ** Extraction *)

(** A property that every row of a card of either schema has holds of
    every row [parse_listings] returns. *)
Lemma parse_listings_Forall (P : row → Prop) (lxml : str → result (list node))
    (html : str) (rows : list row) :
  (∀ c new, card_new c = Ok new → Forall P new) →
  (∀ b new, card_old b = Ok new → Forall P new) →
  parse_listings lxml html = Ok rows → Forall P rows.
Proof.
  intros Hnew Hold. rewrite parse_listings_eq.
  destruct (BeautifulSoup lxml html) as [soup|e]; [|done].
  destruct (parse_cards_new soup) as [new|e] eqn:En; [|done].
  assert (Forall P new) as Hn.
  { revert En. apply for_each_Forall; [exact Hnew | constructor]. }
  destruct new as [|r new].
  - apply for_each_Forall; [exact Hold | constructor].
  - by intros <-%Ok_inj.
Qed.


Lemma for_each_length {A B} (body : A → result (list B)) xs out out' :
  (∀ x new, body x = Ok new → (length new ≤ 1)%nat) →
  for_each body xs out = Ok out' →
  (length out' ≤ length out + length xs)%nat.
Proof.
  intros Hbody. revert out. induction xs as [|x xs IH]; intros out; simpl.
  - intros [= <-]. lia.
  - destruct (body x) as [new|e] eqn:Hx; simpl; [|done].
    intros H. apply IH in H. rewrite length_app in H.
    specialize (Hbody x new Hx). lia.
Qed.



(** X3: in every extracted row the price is the normalisation of the raw
    price text of the same row: there is no price without a raw text, and a
    price is never negative. *)
Theorem price_follows_price_raw (lxml : str → result (list node))
    (html : str) (rows : list row) :
  parse_listings lxml html = Ok rows →
  Forall (fun r => price_consistent r
                   ∧ (price_raw r = None → price r = None)
                   ∧ ∀ p, price r = Some p → 0 ≤ p) rows.
Proof.
  assert (∀ r, price_consistent r →
               price_consistent r ∧ (price_raw r = None → price r = None)
               ∧ ∀ p, price r = Some p → 0 ≤ p) as Hcons.
  { intros r Hr. split; [exact Hr |]. unfold price_consistent in Hr. split.
    - intros Hraw. by rewrite Hr, Hraw.
    - intros p. rewrite Hr. destruct (price_raw r) as [t|]; [|done].
      cbn [from_option]. unfold normalized.
      destruct (truthy _); intros [= <-]. apply numeral_nonneg. }
  apply (parse_listings_Forall
           (fun r => price_consistent r
                     ∧ (price_raw r = None → price r = None)
                     ∧ ∀ p, price r = Some p → 0 ≤ p)).
  - intros c new ->%card_new_rows.
    destruct (select_one sel_title c); constructor; [|done].
    by apply Hcons.
  - intros b new ->%card_old_rows. cbv zeta.
    destruct (option_map (get_text_strip []) _) as [nm|]; [|constructor].
    destruct (truthy nm); constructor; [|done]. by apply Hcons.
Qed.

Lemma price_follows_price_raw_witness :
  Forall (fun r => price_consistent r
                   ∧ (price_raw r = None → price r = None)
                   ∧ ∀ p, price r = Some p → 0 ≤ p) [listing_row].
Proof.
  apply (price_follows_price_raw sample_parser listing_html).
  by vm_compute.
Defined.

(** X4: a container gives at most one row: a page never yields more rows
    than it has cards of the primary schema or, when those give nothing,
    blocks of the legacy schema. *)
Theorem rows_bounded_by_containers (lxml : str → result (list node))
    (html : str) (rows : list row) :
  parse_listings lxml html = Ok rows →
  ∃ soup,
    BeautifulSoup lxml html = Ok soup
    ∧ (length rows ≤ length (cards_of soup) `max` length (blocks_of soup))%nat.
Proof.
  rewrite parse_listings_eq. unfold cards_of, blocks_of.
  destruct (BeautifulSoup lxml html) as [soup|e]; [|done].
  intros H. exists soup. split; [done |]. revert H.
  destruct (parse_cards_new soup) as [new|e] eqn:En; [|done].
  apply for_each_length in En; cycle 1.
  { intros c r ->%card_new_rows.
    destruct (select_one sel_title c); simpl; lia. }
  destruct new as [|r new].
  - intros Eo. apply for_each_length in Eo; cycle 1.
    { intros b r ->%card_old_rows. cbv zeta.
      destruct (option_map (get_text_strip []) _) as [nm|]; [|simpl; lia].
      destruct (truthy nm); simpl; lia. }
    cbn [length Nat.add] in *. lia.
  - intros <-%Ok_inj. cbn [length Nat.add] in *. lia.
Qed.

Lemma rows_bounded_by_containers_witness :
  ∃ soup,
    BeautifulSoup sample_parser listing_html = Ok soup
    ∧ (length [listing_row]
       ≤ length (cards_of soup) `max` length (blocks_of soup))%nat.
Proof.
  apply (rows_bounded_by_containers sample_parser listing_html).
  by vm_compute.
Defined.

(** X5: when the primary schema gives nothing, every row has a name: the
    rows of the legacy schema are all named. *)
Theorem legacy_rows_are_named (lxml : str → result (list node)) (html : str)
    (soup : tag) (rows : list row) :
  BeautifulSoup lxml html = Ok soup →
  parse_cards_new soup = Ok [] →
  parse_listings lxml html = Ok rows →
  Forall (fun r => name r ≠ []) rows.
Proof.
  rewrite parse_listings_eq. intros -> ->. apply parse_cards_old_named.
Qed.

Lemma legacy_rows_are_named_witness :
  ∃ rows, parse_listings (parsed legacy_doc) legacy_html = Ok rows
          ∧ Forall (fun r => name r ≠ []) rows.
Proof.
  eexists. split; [by vm_compute |].
  eapply (legacy_rows_are_named (parsed legacy_doc) legacy_html);
    [reflexivity | by vm_compute | by vm_compute].
Defined.

(** ** Pagination *)

Lemma int_digits_nonneg (s : str) (acc n : Z) :
  0 ≤ acc → int_digits acc s = Ok n → 0 ≤ n.
Proof.
  revert acc. induction s as [|c s IH]; intros acc Hacc; simpl.
  - by intros [= <-].
  - destruct (decimal_value c) as [d|]; [|done]. apply IH. lia.
Qed.

Lemma int_nonneg (s : str) (n : Z) : int s = Ok n → 0 ≤ n.
Proof.
  destruct s; [done |]. unfold int. destruct (_ <? _); [done |].
  by apply int_digits_nonneg.
Qed.

Lemma pager_nums_nonneg (anchors : list tag) (nums nums' : list Z) :
  Forall (fun n => 0 ≤ n) nums →
  pager_nums anchors nums = Ok nums' →
  Forall (fun n => 0 ≤ n) nums'.
Proof.
  revert nums. induction anchors as [|a anchors IH]; intros nums Hnums; simpl.
  - by intros [= <-].
  - destruct (isdigit _); [|by apply IH].
    destruct (int _) as [n|e] eqn:Hn; [|done]. cbn [rbind].
    apply IH. apply Forall_app. split; [done |].
    constructor; [by apply int_nonneg in Hn | constructor].
Qed.

Lemma pager_nums_not_decimal (anchors : list tag) (nums : list Z) :
  all_decimal (List.filter isdigit (List.map label anchors)) = false →
  pager_nums anchors nums = Raise ValueError.
Proof.
  unfold all_decimal.
  revert nums. induction anchors as [|a anchors IH]; intros nums H; simpl.
  - done.
  - fold (label a). simpl in H. destruct (isdigit (label a)) eqn:Hd.
    + simpl in H. destruct (forallb isdecimal_char (label a)) eqn:Ha.
      * destruct (int (label a)) as [n|e] eqn:Hi; cbn [rbind].
        -- by apply IH.
        -- by rewrite (int_raises _ _ Hi).
      * by rewrite (int_not_decimal _ Ha).
    + by apply IH.
Qed.

Lemma pages_count_bounds (lxml : str → result (list node)) (html : str)
    (r : Z) :
  pages_count lxml html = Ok r → 0 ≤ r ≤ MAX_PAGES.
Proof.
  unfold pages_count.
  destruct (BeautifulSoup lxml html) as [soup|e]; [|done]. cbn [rbind].
  unfold pages_count_soup.
  destruct (or_else _ _) as [pager|]; [|by intros [= <-]].
  destruct (pager_nums _ _) as [nums|e] eqn:Hnums; [|done]. cbn [rbind].
  apply pager_nums_nonneg in Hnums; [|constructor].
  destruct nums as [|n nums]; [by intros [= <-] |]. intros [= <-].
  apply Forall_cons in Hnums as [Hn _].
  destruct (py_max_ge n nums) as [Hge _]. unfold MAX_PAGES. lia.
Qed.

(** X6: whenever [pages_count] returns, the result is between 0 and
    [MAX_PAGES], whatever the document. *)
Theorem pages_count_within_cap (lxml : str → result (list node)) (html : str)
    (r : Z) :
  pages_count lxml html = Ok r → 0 ≤ r ≤ MAX_PAGES.
Proof. apply pages_count_bounds. Qed.

Lemma pages_count_within_cap_witness :
  0 ≤ MAX_PAGES ≤ MAX_PAGES.
Proof.
  apply (pages_count_within_cap (parsed long_pager_doc) []).
  by vm_compute.
Defined.

(** X7: [pages_count] raises [ValueError] as soon as the pager has a label
    that [isdigit] accepts and that is not made of decimal digits only (a
    superscript or circled digit): [int] rejects what [isdigit] let
    through. *)
Theorem pages_count_raises_on_other_digits (lxml : str → result (list node))
    (html : str) (soup pager : tag) :
  BeautifulSoup lxml html = Ok soup →
  pager_of soup = Some pager →
  all_decimal (numeric_labels pager) = false →
  pages_count lxml html = Raise ValueError.
Proof.
  unfold pages_count. intros ->. cbn [rbind].
  unfold pages_count_soup, pager_of, numeric_labels.
  intros -> H. by rewrite (pager_nums_not_decimal _ _ H).
Qed.

Lemma pages_count_raises_on_other_digits_witness :
  pages_count (parsed superscript_doc) superscript_html = Raise ValueError.
Proof.
  eapply (pages_count_raises_on_other_digits (parsed superscript_doc)).
  - reflexivity.
  - reflexivity.
  - by vm_compute.
Defined.

(** ** Names of pages and files *)

Lemma lit_inj (s t : string) : lit s = lit t → s = t.
Proof.
  unfold lit. intros H.
  rewrite <- (string_of_list_ascii_of_string s),
          <- (string_of_list_ascii_of_string t).
  f_equal. revert H.
  generalize (list_ascii_of_string s) (list_ascii_of_string t).
  intros l. induction l as [|a l IH]; intros [|b l']; simpl; try done.
  intros [= Hab Hl]. f_equal; [|by apply IH].
  by rewrite <- (ascii_N_embedding a), <- (ascii_N_embedding b), Hab.
Qed.

Lemma to_int_proper (z : Z) :
  Z.to_int z ≠ Decimal.Pos Decimal.Nil ∧ Z.to_int z ≠ Decimal.Neg Decimal.Nil.
Proof.
  destruct z as [|p|p]; simpl; split; try done;
    intros [= H]; by apply DecimalPos.Unsigned.to_uint_nonnil in H.
Qed.

Lemma str_of_int_inj (a b : Z) : str_of_int a = str_of_int b → a = b.
Proof.
  unfold str_of_int. intros H%lit_inj.
  destruct (to_int_proper a) as [Ha1 Ha2], (to_int_proper b) as [Hb1 Hb2].
  pose proof (NilZero.isi _ Ha1 Ha2) as Ia.
  pose proof (NilZero.isi _ Hb1 Hb2) as Ib.
  rewrite H, Ib in Ia. injection Ia as Hab.
  by rewrite <- (DecimalZ.of_to a), <- (DecimalZ.of_to b), Hab.
Qed.

Lemma debug_name_inj (i j : Z) : debug_name i = debug_name j → i = j.
Proof.
  unfold debug_name. intros H%app_inv_head%app_inv_tail.
  by apply str_of_int_inj.
Qed.

Lemma debug_name_not_csv (i : Z) :
  debug_name i ≠ result_name ∧ debug_name i ≠ partial_name.
Proof. split; intros H; by injection H. Qed.



(** ** Effects of the page loop *)

Section LoopEffects.

Variable lxml : str → result (list node).
Variable net : str → str + (Z * str * str).

Ltac run :=
  unfold loop_body, main, save_debug_html, save_to_csv, fetch, print, sleep,
    try_request, write_file, emit, lift, bind, ret;
  cbn [fst snd files trace all_rows consecutive_blocks].

(** What an iteration on a page that fails classification does to the
    world: one call of [fetch], one file, the debug file of the page. *)
Lemma loop_body_not_listings_world (i : Z) (st : locals) (w : world)
    (status : Z) (final_url html : str) :
  net (page_url i) = inr (status, final_url, html) →
  is_listings_page html = false →
  ∃ tr,
    loop_body lxml net i st w =
    (Ok (if consecutive_blocks st + 1 >=? STOP_AFTER_BLOCKS then Break else Next,
         {| all_rows := all_rows st;
            consecutive_blocks := consecutive_blocks st + 1 |}),
     {| files := <[debug_name i := debug_text status final_url html]> (files w);
        trace := trace w ++ tr |})
    ∧ fetched tr = [page_url i]
    ∧ written tr = [debug_name i].
Proof.
  intros H Hc. run. rewrite H. cbn [fst snd files trace]. rewrite Hc.
  cbn [negb]. destruct (_ >=? _); cbn [fst snd files trace];
    rewrite <- !app_assoc; eexists; (split; [reflexivity |]); by split.
Qed.

(** What an iteration on a listings page does to the world when the
    extraction returns: one call of [fetch], and a snapshot of all the rows
    so far when the page index is a multiple of 20. *)
Lemma loop_body_listings_world (i : Z) (st : locals) (w : world)
    (status : Z) (final_url html : str) (rows : list row) :
  net (page_url i) = inr (status, final_url, html) →
  is_listings_page html = true →
  parse_listings lxml html = Ok rows →
  ∃ tr,
    loop_body lxml net i st w =
    (Ok (Next, {| all_rows := all_rows st ++ rows;
                  consecutive_blocks := 0 |}),
     {| files := if i mod 20 =? 0
                 then <[partial_name := csv_text (all_rows st ++ rows)]>
                        (files w)
                 else files w;
        trace := trace w ++ tr |})
    ∧ fetched tr = [page_url i]
    ∧ written tr = if i mod 20 =? 0 then [partial_name] else [].
Proof.
  intros H Hc Hrows. run. rewrite H. cbn [fst snd files trace]. rewrite Hc.
  cbn [negb]. rewrite Hrows.
  destruct (i mod 20 =? 0); cbn [fst snd files trace];
    rewrite <- !app_assoc; eexists; (split; [reflexivity |]); by split.
Qed.

Lemma page_rows_unanswered (i : Z) (msg : str) :
  net (page_url i) = inl msg → page_rows lxml net i = [].
Proof. unfold page_rows. by intros ->. Qed.

Lemma page_rows_not_listings (i status : Z) (final_url html : str) :
  net (page_url i) = inr (status, final_url, html) →
  is_listings_page html = false → page_rows lxml net i = [].
Proof. unfold page_rows. by intros -> ->. Qed.

Lemma page_rows_listings (i status : Z) (final_url html : str)
    (rows : list row) :
  net (page_url i) = inr (status, final_url, html) →
  is_listings_page html = true →
  parse_listings lxml html = Ok rows → page_rows lxml net i = rows.
Proof. unfold page_rows. by intros -> -> ->. Qed.

(** The four kinds of iteration at once: what stays true of every one,
    however it ends. *)
Lemma loop_body_effects (i : Z) (st : locals) (w : world) :
  ∃ r fs tr,
    loop_body lxml net i st w = (r, {| files := fs; trace := trace w ++ tr |})
    ∧ fetched tr = [page_url i]
    ∧ (∀ f, f ≠ partial_name → f ≠ debug_name i → fs !! f = files w !! f)
    ∧ (∀ f, In f (written tr) → f = partial_name ∨ f = debug_name i)
    ∧ (∀ c st', r = Ok (c, st') →
         all_rows st' = all_rows st ++ page_rows lxml net i).
Proof.
  destruct (net (page_url i)) as [msg | [[status final_url] html]] eqn:Hnet.
  - rewrite (loop_body_network_failure _ _ _ _ _ _ Hnet).
    eexists _, _, _. split; [reflexivity |].
    split; [reflexivity |]. split; [done |]. split.
    + intros f Hin. exact (False_ind _ Hin).
    + intros c st' [= _ <-].
      by rewrite (page_rows_unanswered _ _ Hnet), app_nil_r.
  - destruct (is_listings_page html) eqn:Hc.
    + destruct (parse_listings lxml html) as [rows|e] eqn:Hrows.
      * destruct (loop_body_listings_world i st w _ _ _ _ Hnet Hc Hrows)
          as (tr & -> & Hf & Hw).
        eexists _, _, tr. split; [reflexivity |].
        split; [exact Hf |]. split; [|split].
        -- intros f Hp _. destruct (i mod 20 =? 0); [|done].
           by rewrite lookup_insert_ne.
        -- intros f. rewrite Hw. destruct (i mod 20 =? 0); [|by intros []].
           intros [<- | []]. by left.
        -- intros c st' [= _ <-].
           by rewrite (page_rows_listings _ _ _ _ _ Hnet Hc Hrows).
      * rewrite (loop_body_listings_raises _ _ i st w _ _ _ _ Hnet Hc Hrows).
        eexists _, _, _. split; [reflexivity |].
        split; [reflexivity |]. split; [done |]. split; [|done].
        intros f Hin. exact (False_ind _ Hin).
    + destruct (loop_body_not_listings_world i st w _ _ _ Hnet Hc)
        as (tr & -> & Hf & Hw).
      eexists _, _, tr. split; [reflexivity |].
      split; [exact Hf |]. split; [|split].
      * intros f _ Hd. by rewrite lookup_insert_ne.
      * intros f. rewrite Hw. intros [<- | []]. by right.
      * intros c st' [= _ <-]. cbn [all_rows].
        by rewrite (page_rows_not_listings _ _ _ _ Hnet Hc), app_nil_r.
Qed.

(** The same over a run of the loop: [fetch] was called for the first [k]
    pages of the range, all of them when the loop ran to its end. *)
Lemma for_loop_effects (pages : list Z) (st : locals) (w : world) :
  ∃ r w' k,
    for_loop lxml net pages st w = (r, w')
    ∧ (k ≤ length pages)%nat
    ∧ fetched (trace w') = fetched (trace w) ++ List.map page_url (take k pages)
    ∧ (∀ f, f ≠ partial_name → (∀ i, In i pages → f ≠ debug_name i) →
            files w' !! f = files w !! f)
    ∧ (∀ f, In f (written (trace w')) →
            In f (written (trace w)) ∨ f = partial_name
            ∨ ∃ i, In i pages ∧ f = debug_name i)
    ∧ (∀ c st', r = Ok (c, st') →
         all_rows st'
         = all_rows st ++ flat_map (page_rows lxml net) (take k pages)
         ∧ (c = Next → k = length pages)).
Proof.
  revert st w. induction pages as [|i pages IH]; intros st w.
  - exists (Ok (Next, st)), w, 0%nat. cbn [for_loop]. unfold ret.
    rewrite !app_nil_r. split; [done |]. split; [done |]. split; [done |].
    split; [done |]. split; [auto |].
    intros c st' [= <- <-]. done.
  - rewrite for_loop_cons.
    destruct (loop_body_effects i st w)
      as (r1 & fs1 & tr1 & -> & Hf1 & Hfr1 & Hw1 & Hr1).
    assert (∀ f, In f (written (trace w ++ tr1)) →
                 In f (written (trace w)) ∨ f = partial_name
                 ∨ ∃ j, In j (i :: pages) ∧ f = debug_name j) as Hw1'.
    { intros f. rewrite written_app, in_app_iff.
      intros [Hin | Hin]; [by left |].
      apply Hw1 in Hin as [-> | ->]; [by right; left |].
      right; right. exists i. split; [by left | done]. }
    destruct r1 as [[[] st1]|e].
    + destruct (IH st1 {| files := fs1; trace := trace w ++ tr1 |})
        as (r & w' & k & -> & Hk & Hf & Hfr & Hw & Hr).
      exists r, w', (S k).
      split; [done |]. split; [simpl; lia |]. split.
      { rewrite Hf. cbn [trace take List.map].
        by rewrite fetched_app, Hf1, <- app_assoc. }
      split; [|split].
      * intros f Hp Hd. rewrite Hfr; [|done | intros j Hj; apply Hd; by right].
        cbn [files]. apply Hfr1; [done | apply Hd; by left].
      * intros f Hin. apply Hw in Hin. cbn [trace] in Hin.
        destruct Hin as [Hin | [-> | (j & Hj & ->)]].
        -- by apply Hw1'.
        -- by right; left.
        -- right; right. exists j. split; [by right | done].
      * intros c st' Hres. destruct (Hr c st' Hres) as [Hrows Hall].
        split; [|intros Hc; simpl; by rewrite (Hall Hc)].
        rewrite Hrows, (Hr1 Next st1 eq_refl). cbn [take flat_map].
        by rewrite <- app_assoc.
    + exists (Ok (Break, st1)), {| files := fs1; trace := trace w ++ tr1 |},
        1%nat.
      split; [done |]. split; [simpl; lia |].
      split; [cbn [trace take List.map]; by rewrite fetched_app, Hf1 |].
      split; [|split].
      * intros f Hp Hd. cbn [files]. apply Hfr1; [done | apply Hd; by left].
      * exact Hw1'.
      * intros c st' [= <- <-]. split; [|done].
        rewrite (Hr1 Break st1 eq_refl). cbn [take flat_map].
        by rewrite app_nil_r.
    + exists (Raise e), {| files := fs1; trace := trace w ++ tr1 |}, 1%nat.
      split; [done |]. split; [simpl; lia |].
      split; [cbn [trace take List.map]; by rewrite fetched_app, Hf1 |].
      split; [|split].
      * intros f Hp Hd. cbn [files]. apply Hfr1; [done | apply Hd; by left].
      * exact Hw1'.
      * done.
Qed.

(** The outcome of an iteration does not depend on the world it starts
    in. *)
Lemma loop_body_world_free (i : Z) (st : locals) (w1 w2 : world) :
  fst (loop_body lxml net i st w1) = fst (loop_body lxml net i st w2).
Proof.
  destruct (net (page_url i)) as [msg | [[status final_url] html]] eqn:Hnet.
  - by rewrite !(loop_body_network_failure _ _ _ _ _ _ Hnet).
  - destruct (is_listings_page html) eqn:Hc.
    + destruct (parse_listings lxml html) as [rows|e] eqn:Hrows.
      * destruct (loop_body_listings_world i st w1 _ _ _ _ Hnet Hc Hrows)
          as (tr1 & -> & _).
        by destruct (loop_body_listings_world i st w2 _ _ _ _ Hnet Hc Hrows)
          as (tr2 & -> & _).
      * by rewrite !(loop_body_listings_raises _ _ i st _ _ _ _ _ Hnet Hc Hrows).
    + destruct (loop_body_not_listings_world i st w1 _ _ _ Hnet Hc)
        as (tr1 & -> & _).
      by destruct (loop_body_not_listings_world i st w2 _ _ _ Hnet Hc)
        as (tr2 & -> & _).
Qed.

(** X13: unreachable pages are invisible to the variables of the loop:
    the loop ends with the same rows, the same counter and the same
    decision to stop as the loop over the pages that answered.  So two
    blocked pages with unreachable pages between them count as
    consecutive. *)
Theorem unanswered_pages_are_transparent (pages : list Z) (st : locals)
    (w1 w2 : world) :
  fst (for_loop lxml net pages st w1)
  = fst (for_loop lxml net (List.filter (answered net) pages) st w2).
Proof.
  revert st w1 w2. induction pages as [|i pages IH]; intros st w1 w2; [done |].
  cbn [List.filter]. unfold answered at 1.
  destruct (net (page_url i)) as [msg | resp] eqn:Hnet.
  - rewrite for_loop_cons, (loop_body_network_failure _ _ _ _ _ _ Hnet).
    apply IH.
  - rewrite !for_loop_cons.
    pose proof (loop_body_world_free i st w1 w2) as Hfree.
    destruct (loop_body_effects i st w1) as (r1 & fs1 & tr1 & E1 & _).
    destruct (loop_body_effects i st w2) as (r2 & fs2 & tr2 & E2 & _).
    rewrite E1, E2 in Hfree |- *. cbn [fst] in Hfree. subst r2.
    destruct r1 as [[[] st1]|e]; [apply IH | done | done].
Qed.

End LoopEffects.

(** X9: the loop calls [fetch] for the pages of its range in order, once
    for each, starting with the first: the addresses it has been called
    with at the end are those of an initial part of the range, and of the
    whole range when the loop ran to its end, neither left by [break] nor
    ended by an exception. *)
Theorem loop_fetches_a_prefix
    (lxml : str → result (list node)) (net : str → str + (Z * str * str))
    (pages : list Z) (st : locals) (w : world) :
  ∃ k,
    (k ≤ length pages)%nat
    ∧ fetched (trace (snd (for_loop lxml net pages st w)))
      = fetched (trace w) ++ List.map page_url (take k pages)
    ∧ (∀ st', fst (for_loop lxml net pages st w) = Ok (Next, st') →
              k = length pages).
Proof.
  destruct (for_loop_effects lxml net pages st w)
    as (r & w' & k & -> & Hk & Hf & _ & _ & Hr).
  exists k. split; [done |]. split; [done |].
  cbn [fst]. intros st' ->. by apply (Hr Next st').
Qed.

Lemma loop_fetches_a_prefix_witness :
  fetched (trace (snd (for_loop no_parser unreachable_site [2; 3]
                         fresh_locals empty_world)))
  = [page_url 2; page_url 3].
Proof.
  destruct (loop_fetches_a_prefix no_parser unreachable_site [2; 3]
              fresh_locals empty_world) as (k & _ & Hf & Hall).
  rewrite Hf, (Hall fresh_locals); [reflexivity | by vm_compute].
Defined.



(** X11: the loop writes no file but the debug files of the pages of its
    range and the partial snapshot; every other file, the result file
    [cars_kolesa.csv] among them, is as it was, however the loop ends. *)
Theorem loop_leaves_other_files
    (lxml : str → result (list node)) (net : str → str + (Z * str * str))
    (pages : list Z) (st : locals) (w : world) :
  (∀ f, In f (written (trace (snd (for_loop lxml net pages st w)))) →
        In f (written (trace w)) ∨ f = partial_name
        ∨ ∃ i, In i pages ∧ f = debug_name i)
  ∧ (∀ f, f ≠ partial_name → (∀ i, In i pages → f ≠ debug_name i) →
          files (snd (for_loop lxml net pages st w)) !! f = files w !! f)
  ∧ files (snd (for_loop lxml net pages st w)) !! result_name
    = files w !! result_name.
Proof.
  destruct (for_loop_effects lxml net pages st w)
    as (r & w' & k & -> & _ & _ & Hfr & Hw & _).
  cbn [snd]. split; [done |]. split; [done |].
  apply Hfr; [by intros H' |].
  intros i _ H'. by destruct (debug_name_not_csv i) as [Hne _].
Qed.

Lemma loop_leaves_other_files_witness :
  files (snd (for_loop no_parser blocking_site (range 2 9) fresh_locals
                stale_world)) !! lit "cars_kolesa.csv"
  = Some (lit "left over from the last run")
  ∧ files (snd (for_loop no_parser blocking_site (range 2 9) fresh_locals
                  stale_world)) !! lit "debug_page_1.html" = None.
Proof.
  destruct (loop_leaves_other_files no_parser blocking_site (range 2 9)
              fresh_locals stale_world) as (_ & Hfr & Hres).
  split.
  - etrans; [exact Hres | apply lookup_singleton_eq].
  - rewrite Hfr.
    + apply lookup_singleton_ne. intros H. vm_compute in H. discriminate.
    + intros H. vm_compute in H. discriminate.
    + intros i Hi H. apply (debug_name_inj 1 i) in H. subst i.
      vm_compute in Hi. intuition discriminate.
Defined.

(** X12: an iteration on a listings page whose index is a multiple of 20,
    when the extraction returns, appends the rows of the page and leaves in
    the snapshot file all the rows accumulated up to and including them; an
    iteration on any other index, or on a page that is blocked or
    unreachable, or one the extraction ends with an exception, leaves the
    snapshot file as it was. *)
Theorem snapshot_every_20th_listing
    (lxml : str → result (list node)) (net : str → str + (Z * str * str))
    (i : Z) (st : locals) (w : world) :
  (∀ status final_url html rows,
     net (page_url i) = inr (status, final_url, html) →
     is_listings_page html = true →
     parse_listings lxml html = Ok rows →
     i mod 20 = 0 →
     ∃ w',
       loop_body lxml net i st w =
       (Ok (Next, {| all_rows := all_rows st ++ rows;
                     consecutive_blocks := 0 |}), w')
       ∧ files w' !! partial_name = Some (csv_text (all_rows st ++ rows)))
  ∧ (listed net i = false ∨ i mod 20 ≠ 0 →
     files (snd (loop_body lxml net i st w)) !! partial_name
     = files w !! partial_name)
  ∧ (∀ e, fst (loop_body lxml net i st w) = Raise e →
     files (snd (loop_body lxml net i st w)) !! partial_name
     = files w !! partial_name).
Proof.
  split; [|split].
  - intros status final_url html rows Hnet Hc Hrows Hi.
    destruct (loop_body_listings_world lxml net i st w _ _ _ _ Hnet Hc Hrows)
      as (tr & -> & _).
    eexists. split; [reflexivity |]. cbn [files].
    apply Z.eqb_eq in Hi. rewrite Hi. apply lookup_insert_eq.
  - unfold listed.
    destruct (net (page_url i)) as [msg | [[status final_url] html]] eqn:Hnet.
    { by rewrite (loop_body_network_failure _ _ _ _ _ _ Hnet). }
    destruct (is_listings_page html) eqn:Hc.
    + intros [Hl | Hi]; [done |]. apply Z.eqb_neq in Hi.
      destruct (parse_listings lxml html) as [rows|e] eqn:Hrows.
      * destruct (loop_body_listings_world lxml net i st w _ _ _ _ Hnet Hc
                    Hrows) as (tr & -> & _).
        cbn [snd files]. by rewrite Hi.
      * by rewrite (loop_body_listings_raises _ _ i st w _ _ _ _ Hnet Hc Hrows).
    + intros _.
      destruct (loop_body_not_listings_world lxml net i st w _ _ _ Hnet Hc)
        as (tr & -> & _).
      cbn [snd files]. destruct (debug_name_not_csv i) as [_ Hne].
      by rewrite lookup_insert_ne.
  - intros e.
    destruct (net (page_url i)) as [msg | [[status final_url] html]] eqn:Hnet.
    { by rewrite (loop_body_network_failure _ _ _ _ _ _ Hnet). }
    destruct (is_listings_page html) eqn:Hc.
    + destruct (parse_listings lxml html) as [rows|e'] eqn:Hrows.
      * by destruct (loop_body_listings_world lxml net i st w _ _ _ _ Hnet Hc
                       Hrows) as (tr & -> & _).
      * by rewrite (loop_body_listings_raises _ _ i st w _ _ _ _ Hnet Hc Hrows).
    + destruct (loop_body_not_listings_world lxml net i st w _ _ _ Hnet Hc)
        as (tr & -> & _). by destruct (_ >=? _).
Qed.

Lemma snapshot_every_20th_listing_witness :
  ∃ w',
    loop_body sample_parser (fun url => inr (200, url, listing_html)) 40
      fresh_locals empty_world
    = (Ok (Next, {| all_rows := [listing_row]; consecutive_blocks := 0 |}), w')
    ∧ files w' !! partial_name = Some (csv_text [listing_row]).
Proof.
  destruct (snapshot_every_20th_listing sample_parser
              (fun url => inr (200, url, listing_html)) 40 fresh_locals
              empty_world) as (Hsnap & _).
  apply (Hsnap 200 (page_url 40) listing_html [listing_row]);
    by vm_compute.
Defined.

(** ** The whole run, case by case *)

Section MainCases.

Variable lxml : str → result (list node).
Variable net : str → str + (Z * str * str).

Lemma main_fetch_fails (w : world) (msg : str) :
  net URL = inl msg →
  main lxml net w =
  (Raise (RequestException msg),
   {| files := files w; trace := trace w ++ [Fetched URL] |}).
Proof.
  intros Hnet. unfold main, bind at 1. unfold fetch, bind at 1.
  unfold emit at 1, lift. by rewrite Hnet.
Qed.

Lemma main_not_listings (w : world) (status : Z) (final_url html : str) :
  net URL = inr (status, final_url, html) →
  is_listings_page html = false →
  ∃ tr,
    main lxml net w =
    (Ok tt, {| files := <[debug_name 1 := debug_text status final_url html]>
                          (files w);
               trace := trace w ++ tr |})
    ∧ fetched tr = [URL].
Proof.
  intros Hnet Hc. unfold main, bind at 1. unfold fetch, bind at 1.
  unfold emit at 1, lift. rewrite Hnet. cbv beta iota. rewrite Hc.
  cbn [negb]. unfold save_debug_html, write_file, print, emit, bind, ret.
  cbn [files trace]. rewrite <- !app_assoc. eexists. by split.
Qed.

Lemma main_pager_raises (w : world) (status : Z) (final_url html : str)
    (e : exn) :
  net URL = inr (status, final_url, html) →
  is_listings_page html = true →
  pages_count lxml html = Raise e →
  main lxml net w =
  (Raise e, {| files := files w; trace := trace w ++ [Fetched URL] |}).
Proof.
  intros Hnet Hc Hpages. unfold main, bind at 1. unfold fetch, bind at 1.
  unfold emit at 1, lift at 1. rewrite Hnet. cbv beta iota. rewrite Hc.
  cbn [negb]. unfold bind at 1. unfold lift at 1. by rewrite Hpages.
Qed.

(** An exception of the extraction on the first page ends the run after
    the number of pages was printed. *)
Lemma main_parse_raises (w : world) (status : Z) (final_url html : str)
    (last_page : Z) (e : exn) :
  net URL = inr (status, final_url, html) →
  is_listings_page html = true →
  pages_count lxml html = Ok last_page →
  parse_listings lxml html = Raise e →
  main lxml net w = (Raise e, loop_start w last_page).
Proof.
  intros Hnet Hc Hpages Hrows.
  unfold main, bind at 1. unfold fetch, bind at 1.
  unfold emit at 1, lift at 1. rewrite Hnet. cbv beta iota. rewrite Hc.
  cbn [negb]. unfold bind at 1. unfold lift at 1. rewrite Hpages.
  unfold bind at 1. unfold print at 1, emit at 1.
  unfold bind at 1. unfold lift at 1. rewrite Hrows.
  cbn [app files trace fst snd]. unfold loop_start, total_line.
  by rewrite <- app_assoc.
Qed.

(** An exception in the loop ends the run where the loop ended. *)
Lemma main_loop_raises (w w2 : world) (status : Z) (final_url html : str)
    (last_page : Z) (first_rows : list row) (e : exn) :
  net URL = inr (status, final_url, html) →
  is_listings_page html = true →
  pages_count lxml html = Ok last_page →
  parse_listings lxml html = Ok first_rows →
  for_loop lxml net (range 2 (last_page + 1))
    {| all_rows := first_rows; consecutive_blocks := 0 |}
    (loop_start w last_page) = (Raise e, w2) →
  main lxml net w = (Raise e, w2).
Proof.
  intros Hnet Hc Hpages Hrows Hloop.
  unfold main, bind at 1. unfold fetch, bind at 1.
  unfold emit at 1, lift at 1. rewrite Hnet. cbv beta iota. rewrite Hc.
  cbn [negb]. unfold bind at 1. unfold lift at 1. rewrite Hpages.
  unfold bind at 1. unfold print at 1, emit at 1.
  unfold bind at 1. unfold lift at 1. rewrite Hrows.
  unfold bind at 1. cbn [app files trace].
  rewrite <- app_assoc. cbn [app]. fold (total_line last_page).
  fold (loop_start w last_page). by rewrite Hloop.
Qed.

Lemma main_listings (w w2 : world) (status : Z) (final_url html : str)
    (last_page : Z) (first_rows : list row) (c : control) (st' : locals) :
  net URL = inr (status, final_url, html) →
  is_listings_page html = true →
  pages_count lxml html = Ok last_page →
  parse_listings lxml html = Ok first_rows →
  for_loop lxml net (range 2 (last_page + 1))
    {| all_rows := first_rows; consecutive_blocks := 0 |}
    (loop_start w last_page) = (Ok (c, st'), w2) →
  ∃ line,
    main lxml net w =
    (Ok tt, {| files := <[result_name := csv_text (all_rows st')]> (files w2);
               trace := trace w2 ++ [Wrote result_name; Printed line] |}).
Proof.
  intros Hnet Hc Hpages Hrows Hloop.
  unfold main, bind at 1. unfold fetch, bind at 1.
  unfold emit at 1, lift at 1. rewrite Hnet. cbv beta iota. rewrite Hc.
  cbn [negb]. unfold bind at 1. unfold lift at 1. rewrite Hpages.
  unfold bind at 1. unfold print at 1, emit at 1.
  unfold bind at 1. unfold lift at 1. rewrite Hrows.
  unfold bind at 1. cbn [app files trace].
  rewrite <- app_assoc. cbn [app]. fold (total_line last_page).
  fold (loop_start w last_page). rewrite Hloop.
  unfold save_to_csv, write_file, print, emit, bind.
  cbn [snd files trace]. rewrite <- app_assoc. by eexists.
Qed.

End MainCases.

(** X14: a network failure on the first page is not caught, unlike one in
    the loop: the run ends with the exception after that single call of
    [fetch], and no file is written. *)
Theorem first_request_failure_is_fatal
    (lxml : str → result (list node)) (net : str → str + (Z * str * str))
    (w : world) (msg : str) :
  net URL = inl msg →
  ∃ w',
    main lxml net w = (Raise (RequestException msg), w')
    ∧ files w' = files w
    ∧ trace w' = trace w ++ [Fetched URL].
Proof.
  intros Hnet. rewrite (main_fetch_fails lxml net w msg Hnet).
  eexists. split; [reflexivity |]. by split.
Qed.

Lemma first_request_failure_is_fatal_witness :
  ∃ w',
    main no_parser unreachable_site empty_world
    = (Raise (RequestException (lit "Max retries exceeded")), w')
    ∧ files w' = ∅
    ∧ trace w' = [Fetched URL].
Proof.
  apply (first_request_failure_is_fatal no_parser unreachable_site
           empty_world).
  reflexivity.
Defined.

(** X15: when the first page is a listings page but [pages_count] raises
    on it, the run ends with that exception right after the first call of
    [fetch]: no further page is fetched, no file is written, and the rows
    of the first page are lost. *)
Theorem unreadable_pager_is_fatal
    (lxml : str → result (list node)) (net : str → str + (Z * str * str))
    (w : world) (status : Z) (final_url html : str) (e : exn) :
  net URL = inr (status, final_url, html) →
  is_listings_page html = true →
  pages_count lxml html = Raise e →
  ∃ w',
    main lxml net w = (Raise e, w')
    ∧ files w' = files w
    ∧ trace w' = trace w ++ [Fetched URL].
Proof.
  intros Hnet Hc Hpages.
  rewrite (main_pager_raises lxml net w _ _ _ _ Hnet Hc Hpages).
  eexists. split; [reflexivity |]. by split.
Qed.

Lemma unreadable_pager_is_fatal_witness :
  ∃ w',
    main (parsed superscript_doc) (fun url => inr (200, url, superscript_html))
      empty_world = (Raise ValueError, w')
    ∧ files w' = ∅
    ∧ trace w' = [Fetched URL].
Proof.
  apply (unreadable_pager_is_fatal (parsed superscript_doc)
           (fun url => inr (200, url, superscript_html)) empty_world
           200 URL superscript_html ValueError).
  - reflexivity.
  - by vm_compute.
  - by vm_compute.
Defined.

(** X16: a run calls [fetch] at most [MAX_PAGES] times, whatever the site
    answers and however the run ends.  A call of [fetch] is one entry of the
    trace; the HTTP requests the session sends within a call, for retries
    and redirects, are not counted. *)
Theorem run_calls_fetch_at_most_max_pages
    (lxml : str → result (list node)) (net : str → str + (Z * str * str))
    (w : world) :
  (length (fetched (trace (snd (main lxml net w))))
   ≤ length (fetched (trace w)) + Z.to_nat MAX_PAGES)%nat.
Proof.
  assert (1 ≤ Z.to_nat MAX_PAGES)%nat as Hone by (unfold MAX_PAGES; lia).
  destruct (net URL) as [msg | [[status final_url] html]] eqn:Hnet.
  { rewrite (main_fetch_fails lxml net w msg Hnet). cbn [snd trace].
    rewrite fetched_app, length_app. cbn [fetched flat_map app length]. lia. }
  destruct (is_listings_page html) eqn:Hc; cycle 1.
  { destruct (main_not_listings lxml net w _ _ _ Hnet Hc) as (tr & -> & Hf).
    cbn [snd trace]. rewrite fetched_app, length_app, Hf.
    cbn [length]. lia. }
  destruct (pages_count lxml html) as [last_page | e] eqn:Hpages; cycle 1.
  { rewrite (main_pager_raises lxml net w _ _ _ _ Hnet Hc Hpages).
    cbn [snd trace]. rewrite fetched_app, length_app.
    cbn [fetched flat_map app length]. lia. }
  destruct (parse_listings lxml html) as [first_rows | e] eqn:Hrows; cycle 1.
  { rewrite (main_parse_raises lxml net w _ _ _ _ _ Hnet Hc Hpages Hrows).
    cbn [snd loop_start trace]. rewrite fetched_app, length_app.
    cbn [fetched flat_map app length]. lia. }
  destruct (for_loop_effects lxml net (range 2 (last_page + 1))
              {| all_rows := first_rows; consecutive_blocks := 0 |}
              (loop_start w last_page))
    as (r & w2 & k & Hloop & Hk & Hf & _).
  assert (length (fetched (trace w2))
          ≤ length (fetched (trace w)) + Z.to_nat MAX_PAGES)%nat as Hbound.
  { rewrite Hf. cbn [loop_start trace].
    rewrite !fetched_app, !length_app, length_map, length_take.
    cbn [fetched flat_map app length].
    apply pages_count_bounds in Hpages. unfold MAX_PAGES in *.
    unfold range in Hk. rewrite length_seqZ in Hk. lia. }
  destruct r as [[c st']|e].
  - destruct (main_listings lxml net w w2 _ _ _ _ _ _ _ Hnet Hc Hpages Hrows
                Hloop) as (line & ->).
    cbn [snd trace]. rewrite fetched_app, length_app.
    cbn [fetched flat_map app length]. lia.
  - by rewrite (main_loop_raises lxml net w w2 _ _ _ _ _ _ Hnet Hc Hpages
                  Hrows Hloop).
Qed.



(** ** Round trip of a price *)

Lemma lit_String (a : ascii) (s : string) :
  lit (String a s) = N_of_ascii a :: lit s.
Proof. reflexivity. Qed.

Lemma numeral_from_cons (acc : Z) (c : char) (s : str) :
  numeral_from acc (c :: s) = numeral_from (10 * acc + digit_value c) s.
Proof. reflexivity. Qed.

(** The characters of a numeral are decimal digits and spell its value. *)
Lemma numeral_of_uint (d : Decimal.uint) :
  forallb isdecimal_char (lit (NilEmpty.string_of_uint d)) = true
  ∧ (∀ acc, numeral_from (Z.pos acc) (lit (NilEmpty.string_of_uint d))
            = Z.pos (Pos.of_uint_acc d acc))
  ∧ numeral (lit (NilEmpty.string_of_uint d)) = Z.of_N (Pos.of_uint d).
Proof.
  unfold numeral.
  induction d as [|d IH|d IH|d IH|d IH|d IH|d IH|d IH|d IH|d IH|d IH];
    [by repeat split | ..];
    destruct IH as (Hdec & Hacc & Hzero);
    cbn [NilEmpty.string_of_uint Pos.of_uint_acc Pos.of_uint];
    rewrite lit_String; cbn [forallb];
    (split; [by rewrite Hdec |]);
    (split; [intros acc; rewrite numeral_from_cons;
             match goal with
             | |- numeral_from ?a _ = Z.pos (Pos.of_uint_acc _ ?p) =>
                 replace a with (Z.pos p)
                   by (match goal with
                       | |- context [digit_value ?ch] =>
                           let v := eval vm_compute in (digit_value ch) in
                           change (digit_value ch) with v
                       end; lia)
             end; apply Hacc |]);
    rewrite numeral_from_cons;
    first [ exact Hzero
          | match goal with
            | |- numeral_from ?a _ = Z.of_N (N.pos (Pos.of_uint_acc _ ?p)) =>
                change a with (Z.pos p)
            end; apply Hacc ].
Qed.

Lemma numeral_str_of_int (n : Z) :
  0 ≤ n →
  truthy (str_of_int n) = true
  ∧ forallb isdecimal_char (str_of_int n) = true
  ∧ numeral (str_of_int n) = n.
Proof.
  intros Hn. destruct n as [|p|p]; [by vm_compute | | lia].
  unfold str_of_int. cbn [Z.to_int NilZero.string_of_int].
  pose proof (DecimalPos.Unsigned.to_uint_nonnil p) as Hnil.
  pose proof (DecimalPos.Unsigned.of_to p) as Hof.
  unfold NilZero.string_of_uint.
  destruct (Pos.to_uint p) as [|d|d|d|d|d|d|d|d|d|d] eqn:Hd; [done | ..];
    rewrite <- Hd in *;
    destruct (numeral_of_uint (Pos.to_uint p)) as (Hdec & _ & Hval);
    (split; [by rewrite Hd |]); (split; [exact Hdec |]);
    by rewrite Hval, Hof.
Qed.

(** X18: a price written to the CSV file reads back as the same price: the
    numeral of a non-negative integer, when it has no more digits than
    [int] converts, converts back to the integer by [int], and normalises
    to it by [_norm_price]. *)
Theorem price_cell_round_trip (n : Z) :
  0 ≤ n →
  over_cap (str_of_int n) = false →
  int (str_of_int n) = Ok n
  ∧ _norm_price (cell_int (Some n)) = Ok (Some n).
Proof.
  intros Hn Hcap. destruct (numeral_str_of_int n Hn) as (Hne & Hdec & Hval).
  split.
  - by rewrite (int_decimal _ Hne Hdec Hcap), Hval.
  - cbn [cell_int]. rewrite norm_price_eq. unfold normalized.
    assert (digits_of (str_of_int n) = str_of_int n) as ->.
    { unfold digits_of. revert Hdec. generalize (str_of_int n). intros s.
      induction s as [|c s IH]; [done |]. cbn [forallb List.filter].
      intros [-> Hs]%andb_true_iff. by rewrite IH. }
    by rewrite Hcap, Hne, Hval.
Qed.

Lemma price_cell_round_trip_witness :
  _norm_price (cell_int (Some 12500000)) = Ok (Some 12500000).
Proof.
  apply (price_cell_round_trip 12500000); [lia | by vm_compute].
Defined.

(** ** The integers the program formats

    [str_of_int] is [str] on the integers whose numeral has at most 4300
    digits.  The prices of the rows are such integers: [int] only returns
    integers whose numeral is no longer than the run of digits it read. *)

Lemma numeral_from_lower (s : str) (acc : Z) :
  0 ≤ acc → acc * 10 ^ Z.of_nat (length s) ≤ numeral_from acc s.
Proof.
  revert acc. induction s as [|c s IH]; intros acc Hacc.
  - cbn. lia.
  - rewrite numeral_from_cons. pose proof (digit_value_bounds c) as Hc.
    etrans; [|apply IH; lia].
    cbn [length]. rewrite Nat2Z.inj_succ, Z.pow_succ_r by lia.
    assert (0 ≤ 10 ^ Z.of_nat (length s)) by (apply Z.pow_nonneg; lia).
    nia.
Qed.

Lemma numeral_from_upper (s : str) (acc : Z) :
  0 ≤ acc → numeral_from acc s < (acc + 1) * 10 ^ Z.of_nat (length s).
Proof.
  revert acc. induction s as [|c s IH]; intros acc Hacc.
  - cbn. lia.
  - rewrite numeral_from_cons. pose proof (digit_value_bounds c) as Hc.
    eapply Z.lt_le_trans; [apply IH; lia |].
    cbn [length]. rewrite Nat2Z.inj_succ, Z.pow_succ_r by lia.
    assert (0 ≤ 10 ^ Z.of_nat (length s)) by (apply Z.pow_nonneg; lia).
    nia.
Qed.

(** The numeral of a positive integer does not start with a zero. *)
Lemma to_uint_head (p : positive) :
  match Pos.to_uint p with
  | Decimal.Nil | Decimal.D0 _ => False
  | _ => True
  end.
Proof.
  pose proof (DecimalPos.Unsigned.to_of (Pos.to_uint p)) as H.
  rewrite DecimalPos.Unsigned.of_to in H. cbn [N.to_uint] in H.
  pose proof (DecimalPos.Unsigned.to_uint_nonzero p) as Hnz.
  pose proof (DecimalPos.Unsigned.to_uint_nonnil p) as Hnil.
  destruct (Pos.to_uint p) as [|d|d|d|d|d|d|d|d|d|d]; try done.
  rewrite DecimalFacts.unorm_D0 in H. unfold Decimal.unorm in H.
  pose proof (DecimalFacts.nzhead_nonzero d) as Hhead.
  destruct (Decimal.nzhead d) as [|u|u|u|u|u|u|u|u|u|u]; try discriminate.
  - apply Hnz. by rewrite H.
  - by destruct (Hhead u).
Qed.

Lemma str_of_int_magnitude (n : Z) :
  0 < n → 10 ^ (Z.of_nat (length (str_of_int n)) - 1) ≤ n.
Proof.
  intros Hn. destruct (numeral_str_of_int n) as (_ & _ & Hval); [lia |].
  rewrite <- Hval at 2. clear Hval.
  destruct n as [|p|p]; [lia | | lia].
  unfold str_of_int. cbn [Z.to_int NilZero.string_of_int].
  pose proof (to_uint_head p) as Hhead. unfold NilZero.string_of_uint.
  destruct (Pos.to_uint p) as [|d|d|d|d|d|d|d|d|d|d]; try done;
    cbn [NilEmpty.string_of_uint]; rewrite lit_String; cbn [length];
    unfold numeral; rewrite numeral_from_cons;
    match goal with
    | |- context [digit_value ?ch] =>
        let v := eval vm_compute in (digit_value ch) in
        change (digit_value ch) with v
    end;
    (etrans; [|apply numeral_from_lower; lia]);
    replace (Z.of_nat (S (length (lit (NilEmpty.string_of_uint d)))) - 1)
      with (Z.of_nat (length (lit (NilEmpty.string_of_uint d)))) by lia;
    assert (0 ≤ 10 ^ Z.of_nat (length (lit (NilEmpty.string_of_uint d))))
      by (apply Z.pow_nonneg; lia);
    lia.
Qed.

(** Whatever [int] returns can be formatted again. *)
Lemma int_result_within_cap (s : str) (n : Z) :
  int s = Ok n → over_cap (str_of_int n) = false.
Proof.
  destruct (forallb isdecimal_char s) eqn:Hdec;
    [|by rewrite (int_not_decimal _ Hdec)].
  destruct (over_cap s) eqn:Hcap; [by rewrite (int_over_cap _ Hcap) |].
  destruct s as [|c s]; [done |].
  rewrite (int_decimal (c :: s) eq_refl Hdec Hcap). intros [= <-].
  pose proof (numeral_nonneg (c :: s)) as Hpos.
  pose proof (numeral_from_upper (c :: s) 0 ltac:(lia)) as Hup.
  fold (numeral (c :: s)) in Hup. revert Hpos Hup.
  generalize (numeral (c :: s)). intros n Hpos Hup.
  unfold over_cap in *. apply Z.ltb_ge in Hcap. apply Z.ltb_ge.
  destruct (Z.eq_dec n 0) as [-> | Hn]; [by vm_compute |].
  pose proof (str_of_int_magnitude n ltac:(lia)) as Hlow.
  assert (Z.of_nat (length (str_of_int n)) - 1 < Z.of_nat (length (c :: s))).
  { apply (Z.pow_lt_mono_r_iff 10); lia. }
  lia.
Qed.

(** So no price of an extracted row is beyond what [str] formats: the
    cells [save_to_csv] writes for them are within the domain of
    [str_of_int]. *)
Lemma extracted_prices_format (lxml : str → result (list node))
    (html : str) (rows : list row) :
  parse_listings lxml html = Ok rows →
  Forall (fun r => ∀ p, price r = Some p → over_cap (str_of_int p) = false)
    rows.
Proof.
  assert (∀ raw p, price_over_cap raw = false →
                   from_option normalized None raw = Some p →
                   over_cap (str_of_int p) = false) as Hraw.
  { intros [t|] p; [|done]. cbn [price_over_cap from_option].
    unfold normalized. intros Hcap.
    destruct (truthy (digits_of t)) eqn:Ht; [|done]. intros [= <-].
    apply (int_result_within_cap (digits_of t)).
    apply int_decimal; [done | apply digits_of_decimal | done]. }
  apply (parse_listings_Forall
           (fun r => ∀ p, price r = Some p → over_cap (str_of_int p) = false)).
  - intros c new. rewrite card_new_eq.
    destruct (select_one sel_title c); [|intros <-%Ok_inj; constructor].
    cbv zeta. destruct (price_over_cap _) eqn:Hcap; [done |].
    intros <-%Ok_inj. constructor; [|done]. cbn [price]. intros p.
    by apply Hraw.
  - intros b new. rewrite card_old_eq. cbv zeta.
    destruct (price_over_cap _) eqn:Hcap; [done |].
    intros <-%Ok_inj.
    destruct (option_map (get_text_strip []) _) as [nm|]; [|constructor].
    destruct (truthy nm); constructor; [|done]. cbn [price]. intros p.
    by apply Hraw.
Qed.

(** ** Classification and normalisation *)

(** X19: the classifier accepts a body exactly when it holds both primary
    markers, or the legacy container marker with one of the two legacy
    field markers; in particular the markers alone are enough, wherever
    they stand. *)
Theorem is_listings_page_iff_markers (html : str) :
  is_listings_page html = true ↔
  (occurs (lit "a-card__title") html ∧ occurs (lit "a-card__link") html)
  ∨ (occurs (lit "a-elem") html
     ∧ (occurs (lit "a-el-info-title") html
        ∨ occurs (lit "a-el-info-price") html)).
Proof. apply is_listings_page_spec. Qed.

Lemma is_listings_page_iff_markers_witness :
  is_listings_page (lit "a-el-info-price a-elem") = true.
Proof.
  apply (is_listings_page_iff_markers (lit "a-el-info-price a-elem")).
  right. split.
  - by exists (lit "a-el-info-price "), [].
  - right. by exists [], (lit " a-elem").
Defined.

Lemma digits_of_app (a b : str) :
  digits_of (a ++ b) = digits_of a ++ digits_of b.
Proof.
  unfold digits_of. induction a as [|c a IH]; [done |]. simpl.
  destruct (isdecimal_char c); simpl; by rewrite IH.
Qed.

(** X20: normalisation only sees the decimal digits of a text: putting a
    character that is not a decimal digit anywhere in a text (a space, a
    currency sign, a minus sign, a decimal point) does not change the
    result, and the digits alone normalise like the whole text. *)
Theorem norm_price_ignores_other_characters (a b : str) (c : char) :
  isdecimal_char c = false →
  _norm_price (a ++ c :: b) = _norm_price (a ++ b)
  ∧ _norm_price (digits_of (a ++ b)) = _norm_price (a ++ b).
Proof.
  intros Hc. rewrite !norm_price_eq. unfold normalized. split.
  - rewrite !digits_of_app.
    change (digits_of (c :: b))
      with (if isdecimal_char c then c :: digits_of b else digits_of b).
    by rewrite Hc.
  - assert (digits_of (digits_of (a ++ b)) = digits_of (a ++ b)) as ->; [|done].
    generalize (a ++ b). intros s. unfold digits_of.
    induction s as [|d s IH]; [done |]. cbn [List.filter].
    destruct (isdecimal_char d) eqn:Hd; [|exact IH].
    cbn [List.filter]. by rewrite Hd, IH.
Qed.

Lemma norm_price_ignores_other_characters_witness :
  _norm_price (lit "12.5") = Ok (Some 125).
Proof.
  destruct (norm_price_ignores_other_characters (lit "12") (lit "5") 46%N)
    as [H _]; [by vm_compute |].
  change (lit "12" ++ 46%N :: lit "5") with (lit "12.5") in H.
  rewrite H. by vm_compute.
Defined.
